(** * Salary per hour per branch: the daily ETL script

    A shallow embedding of
    [python_scripts/etl_daily_calculate_salary_per_hour_per_branch.py]:
    the [TimesheetEmployeeProcessor] methods and the script's stages, over
    a small model of the pandas frames they transform.

    Numbers are exact rationals ([Qc]); float rounding error is outside
    the model.  A missing value (NaN, NaT, an empty CSV field) is the
    absence of the cell from its row. *)

From Stdlib Require Import ZArith QArith Qcanon Qround Lqa.
From stdpp Require Import base option numbers list sorting strings pretty gmap.

(** ** Cells, rows and frames *)

(** A cell of a frame: a number, or [None] for NaN/NaT. *)
Definition cell : Type := option Qc.

(** A row maps the names of its non-missing columns to their values. *)
Notation Row := (gmap string Qc).

(** A frame: the header and the rows in index order.  The index label of
    a row is its position (frames are read by [pd.read_csv], whose labels
    are unique, and no method below reuses a label). *)
Record DataFrame := { columns : list string; rows : list Row }.

Definition set_cell (c : string) (v : cell) (r : Row) : Row :=
  match v with Some q => <[c := q]> r | None => delete c r end.

(** [df[c] = f(row)]: assigns a column, appending it to the header when new. *)
Definition assign (c : string) (f : Row → cell) (df : DataFrame) : DataFrame :=
  {| columns := if decide (c ∈ columns df) then columns df else columns df ++ [c];
     rows := (λ r, set_cell c (f r) r) <$> rows df |}.

(** ** Errors *)

Inductive error := KeyError (name : string) | ValueError (msg : string).

Inductive result (A : Type) := Ok (a : A) | Raise (e : error).
Arguments Ok {A} a.
Arguments Raise {A} e.

#[global] Instance result_ret : MRet result := @Ok.
#[global] Instance result_bind : MBind result :=
  λ A B f m, match m with Ok a => f a | Raise e => Raise e end.

(** [df[c]] on a frame without column [c] raises [KeyError]. *)
Definition require (cs : list string) (df : DataFrame) : result unit :=
  match filter (λ c, c ∉ columns df) cs with
  | [] => Ok ()
  | c :: _ => Raise (KeyError c)
  end.

(** ** Numbers *)

Definition num (z : Z) : Qc := Qc_of_Z z.

(** [np.rint]: round to the nearest integer, halves to even. *)
Definition rint (q : Qc) : Z :=
  let f := Qfloor q in
  match ((q - num f) ?= Q2Qc (1 # 2))%Qc with
  | Lt => f
  | Gt => (f + 1)%Z
  | Eq => if Z.even f then f else (f + 1)%Z
  end.

(** [np.round(q, 2)]. *)
Definition round2 (q : Qc) : Qc := (num (rint (q * num 100)) / num 100)%Qc.

(** Comparisons with a missing operand are false, as in pandas. *)
Definition cell_le (a b : cell) : bool :=
  match a, b with Some x, Some y => bool_decide (x ≤ y)%Qc | _, _ => false end.
Definition cell_gt (a b : cell) : bool :=
  match a, b with Some x, Some y => bool_decide (y < x)%Qc | _, _ => false end.
Definition cell_eq0 (a : cell) : bool :=
  match a with Some x => bool_decide (x = 0%Qc) | None => false end.

Definition cell_sub (a b : cell) : cell :=
  match a, b with Some x, Some y => Some (x - y)%Qc | _, _ => None end.

(** Series division.  A zero divisor gives inf or NaN in pandas, neither of
    which is a number: both are the missing cell here. *)
Definition cell_div (a b : cell) : cell :=
  match a, b with
  | Some x, Some y => if decide (y = 0%Qc) then None else Some (x / y)%Qc
  | _, _ => None
  end.

Definition fillna (v : Qc) (a : cell) : cell := Some (default v a).

(** ** Group keys *)

(** The key of a row under [keys]; [None] when one of the cells is missing. *)
Definition key_of (keys : list string) (r : Row) : option (list Qc) :=
  mapM (λ c, r !! c) keys.

Definition key_compare : list Qc → list Qc → comparison := list_compare Qccompare.

Fixpoint insert_key (k : list Qc) (ks : list (list Qc)) : list (list Qc) :=
  match ks with
  | [] => [k]
  | k' :: ks' =>
      match key_compare k k' with
      | Lt => k :: ks
      | Eq => ks
      | Gt => k' :: insert_key k ks'
      end
  end.

(** The distinct keys, in ascending order. *)
Definition sorted_keys (ks : list (list Qc)) : list (list Qc) := foldr insert_key [] ks.

(** The rows with their index labels, counted from [n]. *)
Fixpoint enumerate_from (n : nat) (rs : list Row) : list (nat * Row) :=
  match rs with
  | [] => []
  | r :: rs' => (n, r) :: enumerate_from (S n) rs'
  end.

Definition indexed (rs : list Row) : list (nat * Row) := enumerate_from 0 rs.

(** [df.groupby(keys)] (with pandas' defaults [sort=True], [dropna=True]):
    the groups in ascending key order, each with its rows in index order;
    rows with a missing key cell belong to no group. *)
Definition groupby (keys : list string) (df : DataFrame)
  : result (list (list Qc * list (nat * Row))) :=
  match keys with
  | [] => Raise (ValueError "No group keys passed!")
  | _ =>
      _ ← require keys df;
      let ix := indexed (rows df) in
      Ok ((λ k, (k, filter (λ ir, key_of keys ir.2 = Some k) ix))
            <$> sorted_keys (omap (λ ir, key_of keys ir.2) ix))
  end.

(** ** pandas reductions *)

(** [idxmin]/[idxmax] of one group: the label of the first row holding the
    extreme non-missing value; [None] (NaN) when every value is missing.
    [better v w] says that [v] beats the value [w] of an earlier row. *)
Fixpoint first_best (better : Qc → Qc → bool) (g : list (nat * cell)) : option (nat * Qc) :=
  match g with
  | [] => None
  | (i, None) :: g' => first_best better g'
  | (i, Some v) :: g' =>
      match first_best better g' with
      | Some (j, w) => if better w v then Some (j, w) else Some (i, v)
      | None => Some (i, v)
      end
  end.

Definition Qc_ltb (x y : Qc) : bool := bool_decide (x < y)%Qc.

Definition idxmin (g : list (nat * cell)) : option nat := fst <$> first_best Qc_ltb g.
Definition idxmax (g : list (nat * cell)) : option nat := fst <$> first_best (flip Qc_ltb) g.

(** [df.loc[idx]]: the rows at the given labels; a label that is NaN or not
    in the index raises [KeyError]. *)
Definition loc (df : DataFrame) (idx : list (option nat)) : result (list (gmap string Qc)) :=
  foldr (λ oi acc,
           match oi ≫= (λ i, rows df !! i) with
           | Some r => rs ← acc; Ok (r :: rs)
           | None => Raise (KeyError "nan")
           end) (Ok []) idx.

(** Sum of a group, missing values skipped (an empty sum is 0). *)
Definition sum_cells (cs : list cell) : Qc := foldr (λ c acc, (default 0 c + acc)%Qc) 0%Qc cs.

Definition Qc_max (x y : Qc) : Qc := if bool_decide (x ≤ y)%Qc then y else x.

(** Maximum of a group, missing values skipped; missing when all are. *)
Definition cell_max (c acc : cell) : cell :=
  match c, acc with
  | Some x, Some y => Some (Qc_max x y)
  | Some x, None => Some x
  | None, _ => acc
  end.

Definition max_cells (cs : list cell) : cell := foldr cell_max None cs.

(** [df.groupby(keys, as_index=False)[col].agg()]: one row per group, holding
    the key cells and the reduced column. *)
Definition aggregate (keys : list string) (col : string) (agg : list cell → cell)
    (df : DataFrame) : result DataFrame :=
  g ← groupby keys df;
  _ ← require [col] df;
  Ok {| columns := keys ++ [col];
        rows := (λ kg : list Qc * list (nat * gmap string Qc),
                   set_cell col (agg ((λ ir, ir.2 !! col) <$> kg.2))
                     (list_to_map (zip keys kg.1))) <$> g |}.

(** [df.rename(columns={old: new}, inplace=True)]. *)
Definition rename_row (old new : string) (r : gmap string Qc) : gmap string Qc :=
  set_cell new (r !! old) (delete old r).

Definition rename (old new : string) (df : DataFrame) : DataFrame :=
  {| columns := (λ c, if decide (c = old) then new else c) <$> columns df;
     rows := rename_row old new <$> rows df |}.

(** [pd.merge(left, right, on=keys)], an inner join: every pair of a left
    and a right row with equal key cells (two missing cells are equal), left
    order first.  A non-key column of both frames gets the suffixes
    [_x] and [_y]. *)
Definition overlap (keys : list string) (left right : DataFrame) : list string :=
  filter (λ c, (c ∉ keys) ∧ (c ∈ columns right)) (columns left).

Definition add_suffix (sfx : string) (cs : list string) (r : gmap string Qc) : gmap string Qc :=
  foldr (λ c acc, rename_row c (c +:+ sfx) acc) r cs.

Definition same_key (keys : list string) (l r : gmap string Qc) : Prop :=
  (λ c, l !! c) <$> keys = (λ c, r !! c) <$> keys.

#[global] Instance same_key_dec keys l r : Decision (same_key keys l r).
Proof. unfold same_key. apply _. Defined.

Definition merge (left right : DataFrame) (keys : list string) : result DataFrame :=
  _ ← require keys left;
  _ ← require keys right;
  let ov := overlap keys left right in
  Ok {| columns :=
          ((λ c, if decide (c ∈ ov) then c +:+ "_x" else c) <$> columns left)
          ++ ((λ c, if decide (c ∈ ov) then c +:+ "_y" else c)
                <$> filter (λ c, c ∉ keys) (columns right));
        rows :=
          l ← rows left;
          r ← filter (same_key keys l) (rows right);
          [add_suffix "_x" ov l ∪ add_suffix "_y" ov r] |}.

(** [pd.merge(left, right, left_on=a, right_on=b)], an inner join on one
    column of each frame: both key columns are kept, unless they have the
    same name; any other column of both frames gets the suffixes. *)
Definition shared_key (left_on right_on c : string) : Prop := c = left_on ∧ c = right_on.

Definition overlap_on (left_on right_on : string) (left right : DataFrame) : list string :=
  filter (λ c, (c ∈ columns right) ∧ ¬ shared_key left_on right_on c) (columns left).

Definition merge_on (left right : DataFrame) (left_on right_on : string) : result DataFrame :=
  _ ← require [left_on] left;
  _ ← require [right_on] right;
  let ov := overlap_on left_on right_on left right in
  Ok {| columns :=
          ((λ c, if decide (c ∈ ov) then c +:+ "_x" else c) <$> columns left)
          ++ ((λ c, if decide (c ∈ ov) then c +:+ "_y" else c)
                <$> filter (λ c, ¬ shared_key left_on right_on c) (columns right));
        rows :=
          l ← rows left;
          r ← filter (λ r : gmap string Qc, l !! left_on = r !! right_on) (rows right);
          [add_suffix "_x" ov l ∪ add_suffix "_y" ov r] |}.

(** ** The calendar *)

(** [Series.dt.year] and [Series.dt.month] of a timestamp, given as
    nanoseconds since the epoch. *)
Class Calendar := { dt_year : Z → Z; dt_month : Z → Z }.

Definition year_of `{Calendar} (date : cell) : cell := (λ t : Qc, num (dt_year (Qfloor t))) <$> date.
Definition month_of `{Calendar} (date : cell) : cell := (λ t : Qc, num (dt_month (Qfloor t))) <$> date.

(** ** TimesheetEmployeeProcessor *)

(** Each method takes the frame held in [self.data] and returns the new one. *)

Definition remove_duplicate_data (partitioning_keys : list string) (ordering_key : string)
    (ascending_order : bool) (data : DataFrame) : result DataFrame :=
  g ← groupby partitioning_keys data;
  _ ← require [ordering_key] data;
  let idx := (λ kg : list Qc * list (nat * gmap string Qc),
                (if ascending_order then idxmin else idxmax)
                  ((λ ir, (ir.1, ir.2 !! ordering_key)) <$> kg.2)) <$> g in
  rs ← loc data idx;
  Ok {| columns := columns data; rows := rs |}.

(** [self.data['date'] == date]: false when either side is missing. *)
Definition cell_eq (a b : cell) : bool :=
  match a, b with Some x, Some y => bool_decide (x = y) | _, _ => false end.

(** [filter_timesheets_by_date]: the rows whose date equals [date].  The
    kept rows keep their index labels, which stay unique.  An argument that
    equals no cell of the column, such as a value of another type than the
    column's, keeps no row; the missing cell stands for it. *)
Definition filter_timesheets_by_date (date : cell) (data : DataFrame) : result DataFrame :=
  _ ← require ["date"] data;
  Ok {| columns := columns data;
        rows := filter (λ r, cell_eq (r !! "date") date) (rows data) |}.

Definition valid (r : gmap string Qc) : bool :=
  cell_le (r !! "date") (r !! "resign_date") || bool_decide (r !! "resign_date" = None).

Definition filter_valid_data (data : DataFrame) : result DataFrame :=
  _ ← require ["date"; "resign_date"] data;
  Ok {| columns := columns data; rows := filter (λ r, valid r) (rows data) |}.

Definition select_fields (fields : list string) (data : DataFrame) : result DataFrame :=
  _ ← require fields data;
  Ok {| columns := fields;
        rows := (λ r : gmap string Qc, filter (λ kv, kv.1 ∈ fields) r) <$> rows data |}.

(** Nanoseconds in an hour: [total_seconds() / 3600] of a timedelta. *)
Definition ns_per_hour : Qc := num 3600000000000.

Definition work_hour (checkin checkout : cell) : cell :=
  fillna 0%Qc
    (if cell_gt checkin checkout then Some 0%Qc
     else cell_div (cell_sub checkout checkin) (Some ns_per_hour)).

Definition calculate_work_hour (data : DataFrame) : result DataFrame :=
  _ ← require ["checkin"; "checkout"] data;
  Ok (assign "work_hour" (λ r, work_hour (r !! "checkin") (r !! "checkout")) data).

Definition with_year_month `{Calendar} (data : DataFrame) : DataFrame :=
  assign "month" (λ r, month_of (r !! "date"))
    (assign "year" (λ r, year_of (r !! "date")) data).

Definition sum_work_hour `{Calendar} (data : DataFrame) : result DataFrame :=
  _ ← require ["date"] data;
  df ← aggregate ["year"; "month"; "branch_id"] "work_hour"
         (λ cs, Some (sum_cells cs)) (with_year_month data);
  Ok (rename "work_hour" "total_work_hour" df).

Definition get_salary_per_employee `{Calendar} (data : DataFrame) : result DataFrame :=
  _ ← require ["date"] data;
  df ← aggregate ["year"; "month"; "branch_id"; "employee_id"] "salary"
         max_cells (with_year_month data);
  Ok (rename "salary" "salary_per_month" df).

Definition sum_salary_per_branch (data : DataFrame) : result DataFrame :=
  df ← aggregate ["year"; "month"; "branch_id"] "salary_per_month"
         (λ cs, Some (sum_cells cs)) data;
  Ok (rename "salary_per_month" "total_salary" df).

Definition salary_per_hour (total_salary total_work_hour : cell) : cell :=
  if cell_eq0 total_work_hour then Some 0%Qc
  else round2 <$> cell_div total_salary total_work_hour.

Definition calculate_salary_per_hour (data : DataFrame) : result DataFrame :=
  _ ← require ["total_work_hour"; "total_salary"] data;
  Ok (assign "salary_per_hour"
        (λ r, salary_per_hour (r !! "total_salary") (r !! "total_work_hour")) data).

(** ** The script *)

(** Every stage builds its processor from a copy of its input frame
    ([df.copy()] in [__init__]), so the stages share no state and each is a
    function of the frame it is given.  The timesheet stage that filters by
    the run date and the join of timesheets with employees produce the frame
    that [employee_timesheet_data] starts from. *)

(** [employee_data]: the employee file, one row kept per
    ([employe_id], [branch_id]), the one with the highest salary. *)
Definition employee_data (employees_csv : DataFrame) : result DataFrame :=
  remove_duplicate_data ["employe_id"; "branch_id"] "salary" false employees_csv.

(** [timesheet_data]: the timesheets of the run date [yesterday], one row
    kept per ([employee_id], [date]), the one with the lowest timesheet_id. *)
Definition timesheet_data (timesheets_csv : DataFrame) (yesterday : cell) : result DataFrame :=
  df ← filter_timesheets_by_date yesterday timesheets_csv;
  remove_duplicate_data ["employee_id"; "date"] "timesheet_id" true df.

Definition joined_employee_timesheet_data (timesheet_data employee_data : DataFrame)
  : result DataFrame :=
  merge_on timesheet_data employee_data "employee_id" "employe_id".

Definition employee_timesheet_data (joined_employee_timesheet_data : DataFrame)
  : result DataFrame :=
  df ← filter_valid_data joined_employee_timesheet_data;
  select_fields ["timesheet_id"; "employee_id"; "branch_id"; "salary"; "join_date";
                 "resign_date"; "date"; "checkin"; "checkout"] df.

Definition work_hour_data `{Calendar} (employee_timesheet_data : DataFrame) : result DataFrame :=
  df ← calculate_work_hour employee_timesheet_data;
  sum_work_hour df.

Definition salary_data `{Calendar} (employee_timesheet_data : DataFrame) : result DataFrame :=
  df ← get_salary_per_employee employee_timesheet_data;
  sum_salary_per_branch df.

Definition joined_work_hour_salary_data `{Calendar} (employee_timesheet_data : DataFrame)
  : result DataFrame :=
  w ← work_hour_data employee_timesheet_data;
  s ← salary_data employee_timesheet_data;
  merge w s ["year"; "month"; "branch_id"].

Definition salary_per_hour_data `{Calendar} (employee_timesheet_data : DataFrame)
  : result DataFrame :=
  j ← joined_work_hour_salary_data employee_timesheet_data;
  df ← calculate_salary_per_hour j;
  select_fields ["year"; "month"; "branch_id"; "salary_per_hour"] df.

(** The stages in the order the script runs them, from the two files read
    to the frame that is written out. *)
Definition script_frames `{Calendar} (employees_csv timesheets_csv : DataFrame)
    (yesterday : cell) : result DataFrame :=
  e ← employee_data employees_csv;
  t ← timesheet_data timesheets_csv yesterday;
  j ← joined_employee_timesheet_data t e;
  d ← employee_timesheet_data j;
  salary_per_hour_data d.

(** ** The insert statement *)

(** How Python prints a float inside an f-string. *)
Class FloatFormat := { format_float : cell → string }.

(** [int(x)]: truncation towards zero; NaN cannot be converted. *)
Definition py_int (c : cell) : result Z :=
  match c with
  | Some q => Ok (Z.quot (Qnum q) (Z.pos (Qden q)))
  | None => Raise (ValueError "cannot convert float NaN to integer")
  end.

(** [data[c]] on a row of a frame without column [c] raises [KeyError]. *)
Definition row_get (records : DataFrame) (data : gmap string Qc) (c : string) : result cell :=
  if decide (c ∈ columns records) then Ok (data !! c) else Raise (KeyError c).

Definition insert_prefix : string :=
  "INSERT INTO branch_hourly_salary (year, month, branch_id, salary_per_hour) VALUES ".

(** The value tuple of one row, its fields read from left to right. *)
Definition data_value `{FloatFormat} (records : DataFrame) (data : gmap string Qc)
  : result string :=
  y ← row_get records data "year" ≫= py_int;
  m ← row_get records data "month" ≫= py_int;
  b ← row_get records data "branch_id" ≫= py_int;
  s ← row_get records data "salary_per_hour";
  Ok ("(" +:+ pretty y +:+ ", " +:+ pretty m +:+ ", " +:+ pretty b +:+ ", "
      +:+ format_float s +:+ ")").

(** The loop over [records.iterrows()]: it stops at the first row that fails. *)
Fixpoint data_values `{FloatFormat} (records : DataFrame) (rs : list (gmap string Qc))
  : result (list string) :=
  match rs with
  | [] => Ok []
  | data :: rs' =>
      v ← data_value records data;
      vs ← data_values records rs';
      Ok (v :: vs)
  end.

Definition generate_increment_data_query `{FloatFormat} (records : DataFrame) : result string :=
  vs ← data_values records (rows records);
  Ok (insert_prefix +:+ String.concat ", " vs).

(** ** The Gregorian calendar *)

(** Year and month of a day count since 1970-01-01 in the proleptic
    Gregorian calendar, the calendar of pandas timestamps. *)
Definition civil (days : Z) : Z * Z :=
  let z := (days + 719468)%Z in
  let era := (z / 146097)%Z in
  let doe := (z - era * 146097)%Z in
  let yoe := ((doe - doe / 1460 + doe / 36524 - doe / 146096) / 365)%Z in
  let doy := (doe - (365 * yoe + yoe / 4 - yoe / 100))%Z in
  let mp := ((5 * doy + 2) / 153)%Z in
  let m := (if mp <? 10 then mp + 3 else mp - 9)%Z in
  ((yoe + era * 400 + (if m <=? 2 then 1 else 0))%Z, m).

Definition ns_per_day : Z := 86400000000000.

Definition gregorian : Calendar :=
  {| dt_year ns := (civil (ns / ns_per_day)).1;
     dt_month ns := (civil (ns / ns_per_day)).2 |}.

(** Midnight of the day [days] after the epoch, and a time of day. *)
Definition midnight (days : Z) : Qc := num (days * ns_per_day).
Definition clock (h m : Z) : Qc := num ((h * 60 + m) * 60000000000).

(** * Vocabulary of the properties *)

(** The strict order in which [groupby] lists its keys. *)
Definition key_lt (k k' : list Qc) : Prop := key_compare k k' = Lt.

(** Labelled values in increasing label order. *)
Definition label_lt {X} (a b : nat * X) : Prop := a.1 < b.1.

(** The keys of the groups of [rs], ascending. *)
Definition group_keys (keys : list string) (rs : list (gmap string Qc)) : list (list Qc) :=
  sorted_keys (omap (key_of keys) rs).

(** The rows of the group of [k], in index order. *)
Definition group_rows (keys : list string) (k : list Qc) (rs : list (gmap string Qc))
  : list (gmap string Qc) :=
  filter (λ r, key_of keys r = Some k) rs.

(** [v] is at least as good as [w] in the chosen direction. *)
Definition before (ascending : bool) (v w : Qc) : Prop :=
  if ascending then (v ≤ w)%Qc else (w ≤ v)%Qc.
Definition strictly_before (ascending : bool) (v w : Qc) : Prop :=
  if ascending then (v < w)%Qc else (w < v)%Qc.

(** [idxmin] or [idxmax], by direction. *)
Definition idx_extreme (ascending : bool) : list (nat * cell) → option nat :=
  if ascending then idxmin else idxmax.

(** [r] is the row kept for the group of [k]: the first row of the group, in
    index order, holding the extreme value of the ordering column. *)
Definition chosen (keys : list string) (ord : string) (asc : bool)
    (rs : list (gmap string Qc)) (k : list Qc) (r : gmap string Qc) : Prop :=
  key_of keys r = Some k ∧
  ∃ i v, rs !! i = Some r ∧ r !! ord = Some v ∧
    ∀ j r' w, rs !! j = Some r' → key_of keys r' = Some k → r' !! ord = Some w →
      before asc v w ∧ (j < i → strictly_before asc v w).

(** The worked hours of an entry, in the words of the specification. *)
Definition worked_hours (checkin checkout : cell) : Qc :=
  match checkin, checkout with
  | Some ci, Some co =>
      if decide (co < ci)%Qc then 0%Qc else ((co - ci) / ns_per_hour)%Qc
  | _, _ => 0%Qc
  end.

(** The frame built by [groupby(keys, as_index=False)[col].agg()]. *)
Definition agg_row (keys : list string) (col : string) (agg : list cell → cell)
    (rs : list (gmap string Qc)) (k : list Qc) : gmap string Qc :=
  set_cell col (agg ((λ r, r !! col) <$> group_rows keys k rs)) (list_to_map (zip keys k)).

Definition agg_frame (keys : list string) (col : string) (agg : list cell → cell)
    (rs : list (gmap string Qc)) : DataFrame :=
  {| columns := keys ++ [col]; rows := agg_row keys col agg rs <$> group_keys keys rs |}.

(** A row of an aggregate: the key cells of [k] and one value column. *)
Definition out_row (keys : list string) (col : string) (k : list Qc) (v : cell)
  : gmap string Qc :=
  set_cell col v (list_to_map (zip keys k)).

(** The key cells of a row, missing ones included. *)
Definition key_cells (keys : list string) (r : gmap string Qc) : list cell :=
  (λ c, r !! c) <$> keys.

(** The entries with their year and month, as both aggregations see them. *)
Definition dated `{Calendar} (df : DataFrame) : list (gmap string Qc) :=
  rows (with_year_month df).

(** The cells of one column. *)
Definition cells (col : string) (rs : list (gmap string Qc)) : list cell :=
  (λ r, r !! col) <$> rs.

(** The salary of one employee group, and the total of one branch group. *)
Definition salary_per_month `{Calendar} (df : DataFrame) (k4 : list Qc) : cell :=
  max_cells (cells "salary"
               (group_rows ["year"; "month"; "branch_id"; "employee_id"] k4 (dated df))).

Definition employee_groups `{Calendar} (df : DataFrame) (k3 : list Qc) : list (list Qc) :=
  filter (λ k4, take 3 k4 = k3)
    (group_keys ["year"; "month"; "branch_id"; "employee_id"] (dated df)).

Definition total_salary `{Calendar} (df : DataFrame) (k3 : list Qc) : Qc :=
  sum_cells (salary_per_month df <$> employee_groups df k3).

(** The entries after [calculate_work_hour]. *)
Definition with_work_hour (df : DataFrame) : DataFrame :=
  assign "work_hour" (λ r, work_hour (r !! "checkin") (r !! "checkout")) df.

(** The keys, totals and rows of the two aggregates and of their join. *)
Definition total_hours `{Calendar} (df : DataFrame) (k3 : list Qc) : Qc :=
  sum_cells (cells "work_hour"
               (group_rows ["year"; "month"; "branch_id"] k3 (dated (with_work_hour df)))).

Definition hours_keys `{Calendar} (df : DataFrame) : list (list Qc) :=
  group_keys ["year"; "month"; "branch_id"] (dated (with_work_hour df)).

Definition salary_keys `{Calendar} (df : DataFrame) : list (list Qc) :=
  sorted_keys (take 3 <$> group_keys ["year"; "month"; "branch_id"; "employee_id"] (dated df)).

Definition hours_row `{Calendar} (df : DataFrame) (k : list Qc) : gmap string Qc :=
  out_row ["year"; "month"; "branch_id"] "total_work_hour" k (Some (total_hours df k)).

Definition salary_row `{Calendar} (df : DataFrame) (k : list Qc) : gmap string Qc :=
  out_row ["year"; "month"; "branch_id"] "total_salary" k (Some (total_salary df k)).

Definition joined_keys `{Calendar} (df : DataFrame) : list (list Qc) :=
  filter (λ k, k ∈ salary_keys df) (hours_keys df).

Definition joined_row `{Calendar} (df : DataFrame) (k : list Qc) : gmap string Qc :=
  hours_row df k ∪ salary_row df k.

(** The row of the final frame for the key [k]. *)
Definition final_row `{Calendar} (df : DataFrame) (k : list Qc) : gmap string Qc :=
  filter (λ kv : string * Qc, kv.1 ∈ ["year"; "month"; "branch_id"; "salary_per_hour"])
    (set_cell "salary_per_hour"
       (salary_per_hour (Some (total_salary df k)) (Some (total_hours df k)))
       (joined_row df k)).

(** The fractions held by one column of a result, row by row. *)
Definition observe (col : string) (res : result DataFrame) : option (list (option Q)) :=
  match res with
  | Ok df => Some ((λ r : gmap string Qc, this <$> r !! col) <$> rows df)
  | Raise _ => None
  end.

(** ** Example data *)

Definition row (cs : list (string * Qc)) : gmap string Qc := list_to_map cs.

(** 2024-01-01 and 2024-06-01 as day counts. *)
Definition jan_1 : Z := 19723.
Definition jun_1 : Z := 19875.

(** Employee 1 of branch 1 twice, with salaries 2500 and 3000, and employee
    2 of branch 1. *)
Definition employee_rows (id_column : string) : list (gmap string Qc) :=
  [ row [(id_column, num 1); ("branch_id", num 1); ("salary", num 2500);
         ("join_date", midnight jan_1)];
    row [(id_column, num 1); ("branch_id", num 1); ("salary", num 3000);
         ("join_date", midnight jan_1)];
    row [(id_column, num 2); ("branch_id", num 1); ("salary", num 2000);
         ("join_date", midnight jan_1); ("resign_date", midnight jun_1)] ].

(** The file as the script reads it, and as the specification declares it. *)
Definition employees_csv : DataFrame :=
  {| columns := ["employe_id"; "branch_id"; "salary"; "join_date"; "resign_date"];
     rows := employee_rows "employe_id" |}.

Definition declared_employees_csv : DataFrame :=
  {| columns := ["employee_id"; "branch_id"; "salary"; "join_date"; "resign_date"];
     rows := employee_rows "employee_id" |}.

Definition enriched_columns : list string :=
  ["timesheet_id"; "employee_id"; "branch_id"; "salary"; "join_date"; "resign_date";
   "date"; "checkin"; "checkout"].

Definition entry (timesheet employee branch salary : Z) (joined day : Z)
    (checkin checkout : Qc) : gmap string Qc :=
  row [("timesheet_id", num timesheet); ("employee_id", num employee);
       ("branch_id", num branch); ("salary", num salary); ("join_date", midnight joined);
       ("date", midnight day); ("checkin", checkin); ("checkout", checkout)].

(** Two timesheets of employee 1 on 2024-06-01. *)
Definition june_entries : DataFrame :=
  {| columns := enriched_columns;
     rows := [ entry 11 1 1 3000 jan_1 jun_1 (clock 8 0) (clock 16 0);
               entry 10 1 1 3000 jan_1 jun_1 (clock 9 0) (clock 17 0) ] |}.

(** An entry dated before the employee joined. *)
Definition early_entry : gmap string Qc :=
  entry 10 1 1 3000 jun_1 jan_1 (clock 9 0) (clock 17 0).

Definition early_entries : DataFrame :=
  {| columns := enriched_columns; rows := [early_entry] |}.

(** An employee without pay who worked eight hours. *)
Definition unpaid_entries : DataFrame :=
  {| columns := enriched_columns;
     rows := [ entry 10 1 1 0 jan_1 jun_1 (clock 9 0) (clock 17 0) ] |}.

(** An entry whose salary field is negative. *)
Definition negative_salary_entries : DataFrame :=
  {| columns := enriched_columns;
     rows := [ entry 10 1 1 (-3000) jan_1 jun_1 (clock 9 0) (clock 17 0) ] |}.

(** An hours aggregate with two branches and a salary aggregate with one. *)
Definition hours_example : DataFrame :=
  {| columns := ["year"; "month"; "branch_id"; "total_work_hour"];
     rows := [ row [("year", num 2024); ("month", num 6); ("branch_id", num 1);
                    ("total_work_hour", num 10)];
               row [("year", num 2024); ("month", num 6); ("branch_id", num 2);
                    ("total_work_hour", num 7)] ] |}.

Definition salary_example : DataFrame :=
  {| columns := ["year"; "month"; "branch_id"; "total_salary"];
     rows := [ row [("year", num 2024); ("month", num 6); ("branch_id", num 1);
                    ("total_salary", num 125)] ] |}.

(** A joined frame: 125 over 10 hours, and 50 over no hours. *)
Definition joined_example : DataFrame :=
  {| columns := ["year"; "month"; "branch_id"; "total_work_hour"; "total_salary"];
     rows := [ row [("year", num 2024); ("month", num 6); ("branch_id", num 1);
                    ("total_work_hour", num 10); ("total_salary", num 125)];
               row [("year", num 2024); ("month", num 6); ("branch_id", num 2);
                    ("total_work_hour", num 0); ("total_salary", num 50)] ] |}.

(** * Vocabulary of the further properties *)

(** A result that is a value. *)
Definition is_Ok {A} (m : result A) : Prop := ∃ a, m = Ok a.

(** The labelled ordering cells of the group of [k]. *)
Definition group_cells (keys : list string) (ord : string) (k : list Qc)
    (rs : list (gmap string Qc)) : list (nat * cell) :=
  (λ ir, (ir.1, ir.2 !! ord)) <$> filter (λ ir, key_of keys ir.2 = Some k) (indexed rs).

(** Some row of the group of [k] has a value in the ordering column. *)
Definition has_ordering (keys : list string) (ord : string)
    (rs : list (gmap string Qc)) (k : list Qc) : Prop :=
  ∃ r, r ∈ rs ∧ key_of keys r = Some k ∧ is_Some (r !! ord).




(** A frame whose rows have cells in the columns of its header only, as
    every pandas frame. *)
Definition well_formed (df : DataFrame) : Prop :=
  ∀ r c, r ∈ rows df → is_Some (r !! c) → c ∈ columns df.

(** The right rows an inner join pairs with the left row [l]. *)
Definition matches (left_on right_on : string) (right : DataFrame) (l : gmap string Qc)
  : list (gmap string Qc) :=
  filter (λ r : gmap string Qc, l !! left_on = r !! right_on) (rows right).


(** The headers of the two files the script reads. *)
Definition employee_fields : list string :=
  ["employe_id"; "branch_id"; "salary"; "join_date"; "resign_date"].
Definition timesheet_fields : list string :=
  ["timesheet_id"; "employee_id"; "date"; "checkin"; "checkout"].
Definition final_fields : list string := ["year"; "month"; "branch_id"; "salary_per_hour"].

(** [int] of a number. *)
Definition truncate (q : Qc) : Z := Z.quot (Qnum q) (Z.pos (Qden q)).

(** The text of one value tuple of the statement. *)
Definition value_tuple `{FloatFormat} (y m b : Z) (s : cell) : string :=
  "(" +:+ pretty y +:+ ", " +:+ pretty m +:+ ", " +:+ pretty b +:+ ", "
  +:+ format_float s +:+ ")".


(** ** Example data of the further properties *)

Definition timesheet (id employee day : Z) (checkin checkout : Qc) : gmap string Qc :=
  row [("timesheet_id", num id); ("employee_id", num employee); ("date", midnight day);
       ("checkin", checkin); ("checkout", checkout)].

(** The timesheet file: employee 1 twice on 2024-06-01, employee 3, whom
    the employee file does not list, on the same day, and employee 2 on
    2024-01-01. *)
Definition timesheets_csv : DataFrame :=
  {| columns := timesheet_fields;
     rows := [ timesheet 11 1 jun_1 (clock 8 0) (clock 16 0);
               timesheet 10 1 jun_1 (clock 9 0) (clock 17 0);
               timesheet 12 3 jun_1 (clock 9 0) (clock 12 0);
               timesheet 13 2 jan_1 (clock 9 0) (clock 17 0) ] |}.

(** The entries of the example with their work hours, as two batches of
    the same header. *)
Definition june_batch : DataFrame :=
  {| columns := columns (with_work_hour june_entries);
     rows := rows (with_work_hour june_entries) |}.


(** The entries of the example, each one a second time. *)
Definition june_entries_repeated : DataFrame :=
  {| columns := columns june_entries; rows := rows june_entries ++ rows june_entries |}.

(** A printer of cells that writes a number as a fraction. *)
Definition fraction_format : FloatFormat :=
  {| format_float c :=
       match c with
       | Some q => pretty (Qnum q) +:+ "/" +:+ pretty (Z.pos (Qden q))
       | None => "nan"
       end |}.

(** * Properties *)

(** ** Results and headers *)

#[global] Arguments set_cell : simpl never.
#[global] Arguments work_hour : simpl never.
#[global] Arguments salary_per_hour : simpl never.
#[global] Arguments key_of : simpl never.
#[global] Arguments max_cells : simpl never.
#[global] Arguments sum_cells : simpl never.

Lemma require_Ok cs df : require cs df = Ok () ↔ cs ⊆ columns df.
Proof.
  unfold require. split.
  - destruct (filter _ cs) as [|c l] eqn:E; [intros _|done].
    intros c Hc. destruct (decide (c ∈ columns df)) as [|Hn]; [done|].
    assert (c ∈ filter (λ c, c ∉ columns df) cs) as Hin by (by apply list_elem_of_filter).
    rewrite E in Hin. by apply elem_of_nil in Hin.
  - intros Hsub. destruct (filter _ cs) as [|c l] eqn:E; [done|].
    assert (c ∈ filter (λ c, c ∉ columns df) cs) as Hin by (rewrite E; left).
    apply list_elem_of_filter in Hin as [Hn Hc]. by destruct Hn; apply Hsub.
Qed.

Lemma Forall_subseteq (cs l : list string) : Forall (λ c, c ∈ l) cs → cs ⊆ l.
Proof. intros H c Hc. by eapply Forall_forall in H. Qed.

Lemma require_all cs df : Forall (λ c, c ∈ columns df) cs → require cs df = Ok ().
Proof. intros H. apply require_Ok. intros c Hc. by eapply Forall_forall in H. Qed.

(** ** The order of group keys *)

Lemma Qccompare_Eq (x y : Qc) : Qccompare x y = Eq ↔ x = y.
Proof. symmetry. apply Qceq_alt. Qed.

Lemma Qccompare_opp (x y : Qc) : Qccompare y x = CompOpp (Qccompare x y).
Proof. unfold Qccompare. symmetry. apply Qcompare_antisym. Qed.

Lemma Qccompare_trans (x y z : Qc) c :
  Qccompare x y = c → Qccompare y z = c → Qccompare x z = c.
Proof.
  destruct c; intros H1 H2.
  - apply Qccompare_Eq in H1, H2. apply Qccompare_Eq. congruence.
  - apply Qclt_alt in H1, H2. apply Qclt_alt. by eapply Qclt_trans.
  - apply Qcgt_alt in H1, H2. apply Qcgt_alt. by eapply Qclt_trans.
Qed.

Lemma key_compare_Eq k k' : key_compare k k' = Eq ↔ k = k'.
Proof. apply list_compare_refl, Qccompare_Eq. Qed.

Lemma key_compare_opp k k' : key_compare k' k = CompOpp (key_compare k k').
Proof. apply list_compare_antisym; [apply Qccompare_Eq | apply Qccompare_opp]. Qed.

Lemma key_compare_trans k1 k2 k3 c :
  key_compare k1 k2 = c → key_compare k2 k3 = c → key_compare k1 k3 = c.
Proof.
  apply list_compare_trans;
    [apply Qccompare_Eq | apply Qccompare_trans | apply Qccompare_opp].
Qed.

#[global] Instance key_lt_irrefl : Irreflexive key_lt.
Proof.
  intros k Hk. red in Hk.
  by rewrite (proj2 (key_compare_Eq k k) eq_refl) in Hk.
Qed.

#[global] Instance key_lt_trans : Transitive key_lt.
Proof. intros k1 k2 k3. apply key_compare_trans. Qed.

#[global] Instance key_lt_antisym : AntiSymm (=) key_lt.
Proof. intros k k' H1 H2. destruct (irreflexivity key_lt k). by trans k'. Qed.

Lemma key_compare_Gt k k' : key_compare k k' = Gt ↔ key_lt k' k.
Proof.
  unfold key_lt. rewrite (key_compare_opp k k').
  by destruct (key_compare k k').
Qed.

Lemma elem_of_insert_key k k' ks : k' ∈ insert_key k ks ↔ k' = k ∨ k' ∈ ks.
Proof.
  induction ks as [|k0 ks IH]; simpl.
  - rewrite list_elem_of_singleton, elem_of_nil. tauto.
  - destruct (key_compare k k0) eqn:E.
    + apply key_compare_Eq in E as ->. rewrite elem_of_cons. tauto.
    + rewrite !elem_of_cons. tauto.
    + rewrite !elem_of_cons, IH. tauto.
Qed.

Lemma insert_key_sorted k ks :
  StronglySorted key_lt ks → StronglySorted key_lt (insert_key k ks).
Proof.
  induction 1 as [|k0 ks Hs IH Hall]; simpl.
  - repeat constructor.
  - destruct (key_compare k k0) eqn:E.
    + by constructor.
    + constructor; [by constructor|].
      constructor; [done|].
      eapply Forall_impl; [done|]. intros k1 ?. by trans k0.
    + constructor; [done|].
      apply Forall_forall. intros k1 [->|Hin]%elem_of_insert_key.
      * by apply key_compare_Gt.
      * by eapply Forall_forall in Hall.
Qed.

Lemma elem_of_sorted_keys k ks : k ∈ sorted_keys ks ↔ k ∈ ks.
Proof.
  induction ks as [|k0 ks IH]; simpl; [done|].
  rewrite elem_of_insert_key, elem_of_cons, IH. tauto.
Qed.

Lemma sorted_keys_sorted ks : StronglySorted key_lt (sorted_keys ks).
Proof.
  induction ks as [|k0 ks IH]; simpl; [constructor|].
  by apply insert_key_sorted.
Qed.

Lemma StronglySorted_key_lt_NoDup ks : StronglySorted key_lt ks → NoDup ks.
Proof.
  induction 1 as [|k ks Hs IH Hall]; constructor; [|done].
  intros Hin. eapply Forall_forall in Hall; [|done].
  by apply (irreflexivity key_lt k).
Qed.

Lemma sorted_keys_NoDup ks : NoDup (sorted_keys ks).
Proof. apply StronglySorted_key_lt_NoDup, sorted_keys_sorted. Qed.

(** The sorted key list depends only on which keys occur. *)
Lemma sorted_keys_ext ks ks' :
  (∀ k, k ∈ ks ↔ k ∈ ks') → sorted_keys ks = sorted_keys ks'.
Proof.
  intros H. apply (StronglySorted_unique key_lt); [apply sorted_keys_sorted..|].
  apply NoDup_Permutation; [apply sorted_keys_NoDup..|].
  intros k. by rewrite !elem_of_sorted_keys.
Qed.

(** ** Index labels *)

Lemma elem_of_enumerate_from n rs i r :
  (i, r) ∈ enumerate_from n rs ↔ n ≤ i ∧ rs !! (i - n) = Some r.
Proof.
  revert n. induction rs as [|r0 rs IH]; intros n; simpl.
  - rewrite elem_of_nil. split; [done|]. by intros [_ Hl].
  - rewrite elem_of_cons, IH. split.
    + intros [[= -> ->]|[Hle Hl]].
      * by rewrite Nat.sub_diag.
      * split; [lia|]. by replace (i - n) with (S (i - S n)) by lia.
    + intros [Hle Hl]. destruct (decide (i = n)) as [->|Hne].
      * rewrite Nat.sub_diag in Hl. left. by injection Hl as ->.
      * right. split; [lia|].
        by replace (i - n) with (S (i - S n)) in Hl by lia.
Qed.

Lemma elem_of_indexed rs i r : (i, r) ∈ indexed rs ↔ rs !! i = Some r.
Proof.
  unfold indexed. rewrite elem_of_enumerate_from, Nat.sub_0_r.
  split; [tauto|]. split; [lia|done].
Qed.

Lemma enumerate_from_sorted n rs : StronglySorted label_lt (enumerate_from n rs).
Proof.
  revert n. induction rs as [|r0 rs IH]; intros n; simpl; constructor; [done|].
  apply Forall_forall. intros [i r] [Hle _]%elem_of_enumerate_from.
  unfold label_lt. simpl. lia.
Qed.

Lemma StronglySorted_filter {A} (R : relation A) (P : A → Prop)
    `{!∀ x, Decision (P x)} (l : list A) :
  StronglySorted R l → StronglySorted R (filter P l).
Proof.
  induction 1 as [|x l Hs IH Hall]; [constructor|].
  rewrite filter_cons. destruct (decide (P x)); [|done].
  constructor; [done|].
  apply Forall_forall. intros y [_ Hy]%list_elem_of_filter.
  by eapply Forall_forall in Hall.
Qed.

Lemma snd_filter_enumerate_from (P : gmap string Qc → Prop) `{!∀ r, Decision (P r)} n rs :
  (filter (λ ir, P ir.2) (enumerate_from n rs)).*2 = filter P rs.
Proof.
  revert n. induction rs as [|r0 rs IH]; intros n; simpl; [done|].
  rewrite !filter_cons. simpl. destruct (decide (P r0)); simpl; by rewrite IH.
Qed.

Lemma omap_enumerate_from {B} (f : gmap string Qc → option B) n rs :
  omap (λ ir, f ir.2) (enumerate_from n rs) = omap f rs.
Proof.
  revert n. induction rs as [|r0 rs IH]; intros n; simpl; [done|].
  destruct (f r0); by rewrite IH.
Qed.

(** ** Groups *)

Lemma elem_of_group_keys keys rs k :
  k ∈ group_keys keys rs ↔ ∃ r, r ∈ rs ∧ key_of keys r = Some k.
Proof. unfold group_keys. by rewrite elem_of_sorted_keys, list_elem_of_omap. Qed.

Lemma group_keys_NoDup keys rs : NoDup (group_keys keys rs).
Proof. apply sorted_keys_NoDup. Qed.

Lemma groupby_Ok keys df :
  keys ≠ [] → keys ⊆ columns df →
  groupby keys df =
    Ok ((λ k, (k, filter (λ ir, key_of keys ir.2 = Some k) (indexed (rows df)))) <$> group_keys keys (rows df)).
Proof.
  intros Hne Hsub. unfold groupby. destruct keys as [|c keys]; [done|].
  apply require_Ok in Hsub. rewrite Hsub. simpl.
  unfold group_keys, indexed. by rewrite (omap_enumerate_from (key_of (c :: keys))).
Qed.

Lemma group_snd keys k rs :
  (filter (λ ir, key_of keys ir.2 = Some k) (indexed rs)).*2 = group_rows keys k rs.
Proof.
  unfold group_rows, indexed.
  pose proof (snd_filter_enumerate_from (λ r, key_of keys r = Some k) 0 rs) as H.
  exact H.
Qed.

Lemma key_of_length keys r k : key_of keys r = Some k → length k = length keys.
Proof. intros H%mapM_Some. symmetry. by eapply Forall2_length. Qed.

(** ** The first extreme value of a group *)

Section first_best.
Context (better : Qc → Qc → bool).
Hypothesis better_irrefl : ∀ v, better v v = false.
Hypothesis better_asym : ∀ v w, better v w = true → better w v = false.
Hypothesis better_negtrans :
  ∀ u w v, better u w = false → better w v = false → better u v = false.

Lemma first_best_None g :
  first_best better g = None → ∀ i v, (i, Some v) ∉ g.
Proof using Type.
  induction g as [|[i0 [v0|]] g IH]; simpl; intros Hg i v Hin.
  - by apply elem_of_nil in Hin.
  - destruct (first_best better g) as [[j w]|]; [by destruct (better w v0)|done].
  - apply elem_of_cons in Hin as [[=]|Hin]. by eapply IH.
Qed.

Lemma first_best_is_Some g i v : (i, Some v) ∈ g → is_Some (first_best better g).
Proof using Type.
  intros Hin. destruct (first_best better g) eqn:E; [by eexists|].
  by destruct (first_best_None g E i v).
Qed.

Lemma first_best_Some g i v :
  StronglySorted label_lt g → first_best better g = Some (i, v) →
  (i, Some v) ∈ g ∧
  ∀ j w, (j, Some w) ∈ g → better w v = false ∧ (j < i → better v w = true).
Proof using All.
  intros Hs. revert i v.
  induction Hs as [|[i0 c0] g Hs IH Hall]; simpl; intros i v Hg; [done|].
  destruct c0 as [v0|].
  - destruct (first_best better g) as [[j w]|] eqn:E.
    + destruct (IH j w eq_refl) as [Hin Hmin].
      destruct (better w v0) eqn:Hb; injection Hg as <- <-.
      * split; [by right|].
        intros j' w' [[= -> ->]|Hin']%elem_of_cons; [by auto|by apply Hmin].
      * split; [by left|].
        intros j' w' [[= -> ->]|Hin']%elem_of_cons.
        { split; [done|lia]. }
        split; [by eapply better_negtrans; [apply (Hmin j' w' Hin')|]|].
        eapply Forall_forall in Hall; [|done]. unfold label_lt in Hall. simpl in Hall. lia.
    + injection Hg as <- <-. split; [by left|].
      intros j' w' [[= -> ->]|Hin']%elem_of_cons.
      * split; [done|lia].
      * by destruct (first_best_None g E j' w').
  - destruct (IH i v Hg) as [Hin Hmin]. split; [by right|].
    intros j' w' [[=]|Hin']%elem_of_cons. by apply Hmin.
Qed.
End first_best.

Lemma Qc_ltb_irrefl v : Qc_ltb v v = false.
Proof. apply bool_decide_eq_false. apply (irreflexivity Qclt). Qed.

Lemma Qc_ltb_asym v w : Qc_ltb v w = true → Qc_ltb w v = false.
Proof.
  unfold Qc_ltb. rewrite bool_decide_eq_true, bool_decide_eq_false.
  intros H. by apply Qcle_not_lt, Qclt_le_weak.
Qed.

Lemma Qc_ltb_negtrans u w v : Qc_ltb u w = false → Qc_ltb w v = false → Qc_ltb u v = false.
Proof.
  unfold Qc_ltb. rewrite !bool_decide_eq_false.
  intros H1%Qcnot_lt_le H2%Qcnot_lt_le. apply Qcle_not_lt. by trans w.
Qed.

Lemma Qc_ltb_false v w : Qc_ltb w v = false ↔ (v ≤ w)%Qc.
Proof. unfold Qc_ltb. rewrite bool_decide_eq_false. symmetry. apply Qcle_ngt. Qed.

Lemma Qc_ltb_true v w : Qc_ltb v w = true ↔ (v < w)%Qc.
Proof. unfold Qc_ltb. by rewrite bool_decide_eq_true. Qed.

Lemma idx_extreme_Some asc g :
  StronglySorted label_lt g → (∃ i v, (i, Some v) ∈ g) →
  ∃ i v, idx_extreme asc g = Some i ∧ (i, Some v) ∈ g ∧
    ∀ j w, (j, Some w) ∈ g → before asc v w ∧ (j < i → strictly_before asc v w).
Proof.
  intros Hs (i0 & v0 & Hin). destruct asc; simpl; unfold idxmin, idxmax.
  - destruct (first_best_is_Some Qc_ltb g i0 v0 Hin) as [[i v] E].
    destruct (first_best_Some Qc_ltb Qc_ltb_irrefl Qc_ltb_asym Qc_ltb_negtrans g i v Hs E)
      as [Hi Hmin].
    exists i, v. rewrite E. split_and!; [done..|].
    intros j w Hj. destruct (Hmin j w Hj) as [H1 H2]. split.
    + by apply Qc_ltb_false.
    + intros Hlt. by apply Qc_ltb_true, H2.
  - destruct (first_best_is_Some (flip Qc_ltb) g i0 v0 Hin) as [[i v] E].
    destruct (first_best_Some (flip Qc_ltb) (λ v, Qc_ltb_irrefl v)
                (λ v w, Qc_ltb_asym w v)
                (λ u w v H1 H2, Qc_ltb_negtrans v w u H2 H1) g i v Hs E) as [Hi Hmin].
    exists i, v. rewrite E. split_and!; [done..|].
    intros j w Hj. destruct (Hmin j w Hj) as [H1 H2]. split.
    + by apply Qc_ltb_false.
    + intros Hlt. by apply Qc_ltb_true, H2.
Qed.

(** ** Record Deduplicator *)

Lemma loc_fmap_Ok {A} df (f : A → option nat) (l : list A) rs :
  Forall2 (λ a r, ∃ i, f a = Some i ∧ rows df !! i = Some r) l rs →
  loc df (f <$> l) = Ok rs.
Proof.
  unfold loc. induction 1 as [|a r l rs (i & Hf & Hi) _ IH]; [done|].
  rewrite fmap_cons. cbn [foldr]. rewrite IH, Hf. simpl. by rewrite Hi.
Qed.

Lemma Forall_exists_Forall2 {A B} (P : A → B → Prop) (l : list A) :
  Forall (λ a, ∃ b, P a b) l → ∃ k, Forall2 P l k.
Proof.
  induction 1 as [|a l [b Hb] _ [k Hk]]; [by exists []|].
  exists (b :: k). by constructor.
Qed.

Lemma group_labels_sorted {B} (f : nat * gmap string Qc → B) keys k rs :
  StronglySorted label_lt
    ((λ ir, (ir.1, f ir)) <$> filter (λ ir, key_of keys ir.2 = Some k) (indexed rs)).
Proof.
  apply (StronglySorted_fmap _ label_lt label_lt); [by intros [] []|].
  apply StronglySorted_filter, enumerate_from_sorted.
Qed.

Lemma pick_chosen keys ord asc rs k :
  k ∈ group_keys keys rs →
  (∀ r, r ∈ rs → is_Some (key_of keys r) → is_Some (r !! ord)) →
  ∃ r i, idx_extreme asc ((λ ir, (ir.1, ir.2 !! ord))
                            <$> filter (λ ir, key_of keys ir.2 = Some k) (indexed rs)) = Some i
         ∧ rs !! i = Some r ∧ chosen keys ord asc rs k r.
Proof.
  intros (r0 & Hr0 & Hk0)%elem_of_group_keys Hord.
  destruct (Hord r0 Hr0) as [v0 Hv0]; [by rewrite Hk0|].
  apply list_elem_of_lookup in Hr0 as [i0 Hi0].
  destruct (idx_extreme_Some asc _ (group_labels_sorted (λ ir, ir.2 !! ord) keys k rs))
    as (i & v & Hidx & Hin & Hmin).
  { exists i0, v0. apply list_elem_of_fmap. exists (i0, r0). split; [by simpl; rewrite Hv0|].
    apply list_elem_of_filter. split; [done|]. by apply elem_of_indexed. }
  apply list_elem_of_fmap in Hin as ([i' r] & [= <- Hv] & [Hk Hi]%list_elem_of_filter).
  simpl in *. apply elem_of_indexed in Hi.
  exists r, i. split_and!; [done..|].
  split; [done|]. exists i, v. split_and!; [done..|].
  intros j r' w Hj Hk' Hw. apply Hmin.
  apply list_elem_of_fmap. exists (j, r'). split; [by simpl; rewrite Hw|].
  apply list_elem_of_filter. split; [done|]. by apply elem_of_indexed.
Qed.

(** The rows kept by [remove_duplicate_data] are the chosen rows of the
    groups, in ascending key order. *)
Lemma remove_duplicate_data_rows keys ord asc df :
  keys ≠ [] → keys ⊆ columns df → ord ∈ columns df →
  (∀ r, r ∈ rows df → is_Some (key_of keys r) → is_Some (r !! ord)) →
  ∃ out, remove_duplicate_data keys ord asc df = Ok out ∧
    columns out = columns df ∧
    Forall2 (chosen keys ord asc (rows df)) (group_keys keys (rows df)) (rows out).
Proof.
  intros Hne Hsub Hord Hcmp.
  assert (∃ rs, Forall2 (λ k r, ∃ i,
            idx_extreme asc ((λ ir, (ir.1, ir.2 !! ord))
              <$> filter (λ ir, key_of keys ir.2 = Some k) (indexed (rows df))) = Some i
            ∧ rows df !! i = Some r ∧ chosen keys ord asc (rows df) k r)
            (group_keys keys (rows df)) rs) as [rs Hrs].
  { apply Forall_exists_Forall2, Forall_forall. intros k Hk.
    destruct (pick_chosen keys ord asc (rows df) k Hk Hcmp) as (r & i & ?).
    by exists r, i. }
  exists {| columns := columns df; rows := rs |}. split_and!; [|done|].
  - unfold remove_duplicate_data. rewrite groupby_Ok by done. simpl.
    assert (require [ord] df = Ok ()) as ->.
    { by apply require_all; repeat constructor. }
    simpl. rewrite <-list_fmap_compose.
    erewrite loc_fmap_Ok; [done|]. simpl.
    eapply Forall2_impl; [done|]. intros k r (i & Hi & Hr & _). by exists i.
  - simpl. eapply Forall2_impl; [done|]. by intros k r (i & _ & _ & ?).
Qed.

Lemma group_rows_absent (P : list Qc → gmap string Qc → Prop) keys ks rs k :
  Forall2 (λ k r, key_of keys r = Some k ∧ P k r) ks rs → k ∉ ks →
  group_rows keys k rs = [].
Proof.
  unfold group_rows. induction 1 as [|k0 r0 ks rs [Hk0 _] _ IH]; [done|].
  intros [Hne Hnin]%not_elem_of_cons. rewrite filter_cons.
  destruct (decide _) as [Heq|_]; [|by apply IH].
  rewrite Hk0 in Heq. by injection Heq.
Qed.

Lemma group_rows_unique (P : list Qc → gmap string Qc → Prop) keys ks rs k :
  NoDup ks → Forall2 (λ k r, key_of keys r = Some k ∧ P k r) ks rs → k ∈ ks →
  ∃ r, group_rows keys k rs = [r] ∧ P k r.
Proof.
  intros Hnd Hall. revert Hnd.
  induction Hall as [|k0 r0 ks rs [Hk0 HP] Hall IH]; intros Hnd Hin.
  { by apply elem_of_nil in Hin. }
  apply NoDup_cons in Hnd as [Hnin Hnd]. unfold group_rows. rewrite filter_cons.
  destruct (decide (key_of keys r0 = Some k)) as [Heq|Hne].
  - rewrite Hk0 in Heq. injection Heq as ->. exists r0. split; [|done].
    f_equal. by eapply (group_rows_absent P).
  - apply elem_of_cons in Hin as [->|Hin]; [done|]. by apply IH.
Qed.


(** C4. The Record Deduplicator keeps, for every partition key present in the
    input, exactly one record: the first one, in input order, that holds the
    minimum (ascending) or maximum (descending) of the ordering field within
    its group.  It keeps nothing else, and an empty input gives an empty
    output.  The ordering field is comparable: no row with a key misses it. *)
Theorem remove_duplicate_data_one_per_key keys ord asc df :
  keys ≠ [] → keys ⊆ columns df → ord ∈ columns df →
  (∀ r, r ∈ rows df → is_Some (key_of keys r) → is_Some (r !! ord)) →
  ∃ out, remove_duplicate_data keys ord asc df = Ok out ∧
    (∀ k, (∃ r, r ∈ rows df ∧ key_of keys r = Some k) →
          ∃ r, group_rows keys k (rows out) = [r] ∧ chosen keys ord asc (rows df) k r) ∧
    (∀ r, r ∈ rows out →
          ∃ k, key_of keys r = Some k ∧ ∃ r', r' ∈ rows df ∧ key_of keys r' = Some k) ∧
    (rows df = [] → rows out = []).
Proof.
  intros Hne Hsub Hord Hcmp.
  destruct (remove_duplicate_data_rows keys ord asc df Hne Hsub Hord Hcmp)
    as (out & Hout & _ & Hall).
  exists out. split_and!; [done|..].
  - intros k Hk%elem_of_group_keys.
    apply (group_rows_unique (chosen keys ord asc (rows df)) keys
             (group_keys keys (rows df))); [apply group_keys_NoDup| |done].
    eapply Forall2_impl; [done|]. intros k' r Hc. split; [apply Hc|done].
  - intros r Hr. apply list_elem_of_lookup in Hr as [n Hn].
    destruct (Forall2_lookup_r _ _ _ _ _ Hall Hn) as (k & Hk & Hc).
    exists k. split; [apply Hc|].
    apply elem_of_group_keys. by eapply list_elem_of_lookup_2.
  - intros Hnil. rewrite Hnil in Hall. by apply Forall2_nil_inv_l in Hall.
Qed.

(** ** Validity Filter *)

Lemma cell_le_true a b :
  cell_le a b = true ↔ ∃ x y, a = Some x ∧ b = Some y ∧ (x ≤ y)%Qc.
Proof.
  destruct a as [x|], b as [y|]; simpl; try (split; [done|by intros (? & ? & ? & ? & ?)]).
  rewrite bool_decide_eq_true. split; [by eauto|].
  by intros (? & ? & [= ->] & [= ->] & ?).
Qed.

Lemma valid_true r :
  valid r = true ↔
  (∃ d e, r !! "date" = Some d ∧ r !! "resign_date" = Some e ∧ (d ≤ e)%Qc)
  ∨ r !! "resign_date" = None.
Proof.
  unfold valid. by rewrite orb_true_iff, cell_le_true, bool_decide_eq_true.
Qed.

(** C1, as the code has it.  The Validity Filter keeps an enriched entry
    exactly when its date is not after its resign date, or the resign date
    is absent.  The join date plays no part. *)
Theorem filter_valid_data_keeps df :
  "date" ∈ columns df → "resign_date" ∈ columns df →
  ∃ out, filter_valid_data df = Ok out ∧ columns out = columns df ∧
    ∀ r, r ∈ rows out ↔
         r ∈ rows df ∧
         ((∃ d e, r !! "date" = Some d ∧ r !! "resign_date" = Some e ∧ (d ≤ e)%Qc)
          ∨ r !! "resign_date" = None).
Proof.
  intros Hd Hr. unfold filter_valid_data.
  assert (require ["date"; "resign_date"] df = Ok ()) as ->.
  { by apply require_all; repeat constructor. }
  eexists. split; [done|]. simpl. split; [done|].
  intros r. rewrite list_elem_of_filter, Is_true_true, valid_true. tauto.
Qed.

(** ** Work-Hour Calculator *)

Lemma ns_per_hour_ne_0 : ns_per_hour ≠ 0%Qc.
Proof. intros H. apply (f_equal this) in H. by vm_compute in H. Qed.

Lemma work_hour_worked_hours checkin checkout :
  work_hour checkin checkout = Some (worked_hours checkin checkout).
Proof.
  unfold work_hour, worked_hours, fillna, cell_gt, cell_sub, cell_div.
  destruct checkin as [ci|], checkout as [co|]; simpl; try done.
  case_bool_decide; destruct (decide (co < ci)%Qc); done.
Qed.

Lemma lookup_set_cell c v (r : gmap string Qc) : set_cell c v r !! c = v.
Proof. unfold set_cell. destruct v; [apply lookup_insert_eq|apply lookup_delete_eq]. Qed.

Lemma lookup_set_cell_ne c c' v (r : gmap string Qc) :
  c ≠ c' → set_cell c v r !! c' = r !! c'.
Proof.
  intros. unfold set_cell.
  destruct v; [by apply lookup_insert_ne|by apply lookup_delete_ne].
Qed.

(** Closed equations between rationals are settled on their fractions. *)
Ltac Qc_compute := apply Qc_is_canon; vm_compute; reflexivity.

(** C2. For every entry the Work-Hour Calculator stores 0 when checkin is
    after checkout, and otherwise checkout minus checkin in hours; a missing
    time gives 0.  09:00 to 17:00 is 8 hours, 17:00 to 09:00 is 0, and equal
    times give 0. *)
Theorem calculate_work_hour_hours df :
  "checkin" ∈ columns df → "checkout" ∈ columns df →
  ∃ out, calculate_work_hour df = Ok out ∧
    length (rows out) = length (rows df) ∧
    (∀ i r, rows df !! i = Some r →
       ∃ r', rows out !! i = Some r' ∧
         (∀ c, c ≠ "work_hour" → r' !! c = r !! c) ∧
         r' !! "work_hour" =
           Some match r !! "checkin", r !! "checkout" with
                | Some ci, Some co =>
                    if decide (co < ci)%Qc then 0%Qc else ((co - ci) / ns_per_hour)%Qc
                | _, _ => 0%Qc
                end) ∧
    work_hour (Some (clock 9 0)) (Some (clock 17 0)) = Some (num 8) ∧
    work_hour (Some (clock 17 0)) (Some (clock 9 0)) = Some 0%Qc ∧
    (∀ t, work_hour (Some t) (Some t) = Some 0%Qc).
Proof.
  intros Hci Hco. unfold calculate_work_hour.
  assert (require ["checkin"; "checkout"] df = Ok ()) as ->.
  { by apply require_all; repeat constructor. }
  eexists. split; [done|]. simpl. split_and!; [by rewrite length_fmap|..].
  - intros i r Hi. eexists. rewrite list_lookup_fmap, Hi. simpl. split_and!; [done|..].
    + intros c Hc. by apply lookup_set_cell_ne.
    + by rewrite lookup_set_cell, work_hour_worked_hours.
  - rewrite work_hour_worked_hours. f_equal; try Qc_compute.
  - rewrite work_hour_worked_hours. f_equal; try Qc_compute.
  - intros t. rewrite work_hour_worked_hours. f_equal. unfold worked_hours.
    rewrite decide_False by apply (irreflexivity Qclt).
    unfold Qcminus. rewrite Qcplus_opp_r. apply Qcmult_0_l.
Qed.

(** ** Rate Combiner: the ratio *)

Lemma salary_per_hour_nonzero s h :
  h ≠ 0%Qc → salary_per_hour (Some s) (Some h) = Some (round2 (s / h)).
Proof.
  intros Hh. unfold salary_per_hour, cell_eq0, cell_div.
  rewrite bool_decide_eq_false_2 by done. by rewrite decide_False by done.
Qed.






(** ** Aggregator *)

Lemma aggregate_unfold keys col agg df :
  aggregate keys col agg df =
    match keys with
    | [] => Raise (ValueError "No group keys passed!")
    | _ => _ ← require keys df; _ ← require [col] df; Ok (agg_frame keys col agg (rows df))
    end.
Proof.
  unfold aggregate. destruct keys as [|c keys]; [done|].
  destruct (require (c :: keys) df) as [[]|e] eqn:E; [|by unfold groupby; rewrite E].
  rewrite groupby_Ok; [|done|by apply require_Ok]. simpl.
  destruct (require [col] df) as [[]|e]; [|done]. simpl.
  unfold agg_frame. f_equal. f_equal. rewrite <-list_fmap_compose.
  apply list_fmap_ext. intros _ k _. simpl. unfold agg_row.
  by rewrite <-group_snd, <-list_fmap_compose.
Qed.

Lemma aggregate_Ok keys col agg df :
  keys ≠ [] → keys ⊆ columns df → col ∈ columns df →
  aggregate keys col agg df = Ok (agg_frame keys col agg (rows df)).
Proof.
  intros Hne Hsub Hcol. rewrite aggregate_unfold. destruct keys; [done|].
  rewrite (proj2 (require_Ok _ _) Hsub). simpl.
  by rewrite require_all by (by repeat constructor).
Qed.







(** ** Rows of an aggregate *)

Lemma key_of_Some keys r k :
  key_of keys r = Some k ↔ Forall2 (λ c y, r !! c = Some y) keys k.
Proof. apply mapM_Some. Qed.

Lemma key_of_take n keys r k :
  key_of keys r = Some k → key_of (take n keys) r = Some (take n k).
Proof. rewrite !key_of_Some. apply Forall2_take. Qed.

Lemma lookup_zip_keys (keys : list string) (k : list Qc) :
  NoDup keys → length k = length keys →
  Forall2 (λ c y, (list_to_map (zip keys k) : gmap string Qc) !! c = Some y) keys k.
Proof.
  intros Hnd. revert k. induction Hnd as [|c keys Hnin Hnd IH]; intros [|y k] Hlen;
    try done.
  simpl. constructor; [apply lookup_insert_eq|].
  apply Forall2_same_length_lookup. split; [by injection Hlen|].
  intros i c' y' Hc' Hy'. rewrite lookup_insert_ne.
  - assert (Forall2 (λ c y, (list_to_map (zip keys k) : gmap string Qc) !! c = Some y) keys k)
      as HF by (apply IH; by injection Hlen).
    by eapply Forall2_lookup_lr in HF.
  - intros ->. apply Hnin. by eapply list_elem_of_lookup_2.
Qed.

Lemma lookup_zip_keys_None (keys : list string) (k : list Qc) c :
  c ∉ keys → (list_to_map (zip keys k) : gmap string Qc) !! c = None.
Proof.
  intros Hc. apply not_elem_of_list_to_map_1. intros Hin. apply Hc.
  apply list_elem_of_fmap in Hin as ([c' y] & -> & Hin). by eapply elem_of_zip_l.
Qed.

Section out_row.
Context (keys : list string) (col : string) (k : list Qc) (v : cell).
Hypothesis keys_NoDup : NoDup keys.
Hypothesis col_fresh : col ∉ keys.
Hypothesis k_length : length k = length keys.

Lemma out_row_key : key_of keys (out_row keys col k v) = Some k.
Proof using All.
  apply key_of_Some.
  pose proof (lookup_zip_keys keys k keys_NoDup k_length) as HF.
  apply Forall2_same_length_lookup in HF as [Hlen HF].
  apply Forall2_same_length_lookup. split; [done|].
  intros i c y Hc Hy. unfold out_row.
  rewrite lookup_set_cell_ne; [by eapply HF|].
  intros <-. apply col_fresh. by eapply list_elem_of_lookup_2.
Qed.

Lemma out_row_col : out_row keys col k v !! col = v.
Proof using Type. apply lookup_set_cell. Qed.

Lemma out_row_other c : c ∉ keys → c ≠ col → out_row keys col k v !! c = None.
Proof using Type.
  intros Hc Hne. unfold out_row. rewrite lookup_set_cell_ne by done.
  by apply lookup_zip_keys_None.
Qed.
End out_row.

Lemma rename_out_row keys old new k v :
  old ∉ keys → rename_row old new (out_row keys old k v) = out_row keys new k v.
Proof.
  intros Hold. unfold rename_row. rewrite out_row_col.
  unfold out_row. f_equal. unfold set_cell.
  destruct v; [rewrite delete_insert_eq|rewrite delete_delete_eq];
    by rewrite delete_id by (by apply lookup_zip_keys_None).
Qed.

Lemma group_keys_length keys rs k : k ∈ group_keys keys rs → length k = length keys.
Proof. intros (r & _ & Hk)%elem_of_group_keys. by eapply key_of_length. Qed.

(** The rows of a renamed aggregate, one per group in key order. *)
Lemma rename_agg_frame_rows keys old new agg rs :
  old ∉ keys →
  rows (rename old new (agg_frame keys old agg rs)) =
    (λ k, out_row keys new k (agg ((λ r, r !! old) <$> group_rows keys k rs)))
      <$> group_keys keys rs.
Proof.
  intros Hold. simpl. rewrite <-list_fmap_compose. apply list_fmap_ext.
  intros _ k _. simpl. by apply rename_out_row.
Qed.

(** ** Rate Combiner: the join *)

Lemma lookup_union_same (l r : gmap string Qc) c :
  l !! c = r !! c → (l ∪ r) !! c = l !! c.
Proof.
  intros H. rewrite lookup_union. rewrite <-H. by destruct (l !! c).
Qed.

Lemma key_cells_union keys (l r : gmap string Qc) :
  same_key keys l r → key_cells keys (l ∪ r) = key_cells keys l.
Proof.
  unfold same_key, key_cells. induction keys as [|c keys IH]; [done|].
  rewrite !fmap_cons. intros [= Hc Hr]. f_equal; [by apply lookup_union_same|by apply IH].
Qed.

Lemma merge_Ok left right keys :
  keys ⊆ columns left → keys ⊆ columns right → overlap keys left right = [] →
  ∃ out, merge left right keys = Ok out ∧
    columns out = columns left ++ filter (λ c, c ∉ keys) (columns right) ∧
    rows out = l ← rows left; r ← filter (same_key keys l) (rows right); [l ∪ r].
Proof.
  intros Hl Hr Hov. unfold merge.
  rewrite (proj2 (require_Ok _ _) Hl), (proj2 (require_Ok _ _) Hr), Hov. simpl.
  eexists. split; [done|]. simpl. split; [|done].
  by rewrite !list_fmap_id.
Qed.

Lemma elem_of_merge_rows keys (ls rs : list (gmap string Qc)) j :
  j ∈ (l ← ls; r ← filter (same_key keys l) rs; [l ∪ r]) ↔
  ∃ l r, l ∈ ls ∧ r ∈ rs ∧ same_key keys l r ∧ j = l ∪ r.
Proof.
  rewrite list_elem_of_bind. split.
  - intros (l & (r & ->%list_elem_of_singleton & [Hk Hr]%list_elem_of_filter)%list_elem_of_bind & Hl).
    by exists l, r.
  - intros (l & r & Hl & Hr & Hk & ->). exists l. split; [|done].
    apply list_elem_of_bind. exists r. split; [by apply list_elem_of_singleton|].
    by apply list_elem_of_filter.
Qed.

(** C6. The Rate Combiner's join has a row for a (year, month, branch) key
    exactly when the key occurs in both the hours aggregate and the salary
    aggregate; every row of the join is a row of the one united with a row
    of the other that has the same key. *)
Theorem merge_inner_join W S :
  columns W = ["year"; "month"; "branch_id"; "total_work_hour"] →
  columns S = ["year"; "month"; "branch_id"; "total_salary"] →
  ∃ J, merge W S ["year"; "month"; "branch_id"] = Ok J ∧
    (∀ j, j ∈ rows J ↔
          ∃ w s, w ∈ rows W ∧ s ∈ rows S ∧
                 key_cells ["year"; "month"; "branch_id"] w
                 = key_cells ["year"; "month"; "branch_id"] s ∧ j = w ∪ s) ∧
    (∀ k, (∃ j, j ∈ rows J ∧ key_cells ["year"; "month"; "branch_id"] j = k) ↔
          (∃ w, w ∈ rows W ∧ key_cells ["year"; "month"; "branch_id"] w = k) ∧
          (∃ s, s ∈ rows S ∧ key_cells ["year"; "month"; "branch_id"] s = k)).
Proof.
  intros HW HS.
  destruct (merge_Ok W S ["year"; "month"; "branch_id"]) as (J & HJ & _ & Hrows).
  - rewrite HW. by apply Forall_subseteq; repeat constructor.
  - rewrite HS. by apply Forall_subseteq; repeat constructor.
  - unfold overlap. by rewrite HW, HS.
  - exists J. split; [done|]. rewrite Hrows.
    assert (∀ j, j ∈ (l ← rows W;
                      r ← filter (same_key ["year"; "month"; "branch_id"] l) (rows S);
                      [l ∪ r]) ↔
          ∃ w s, w ∈ rows W ∧ s ∈ rows S ∧
                 key_cells ["year"; "month"; "branch_id"] w
                 = key_cells ["year"; "month"; "branch_id"] s ∧ j = w ∪ s) as Hj.
    { intros j. apply elem_of_merge_rows. }
    split; [done|]. intros k. split.
    + intros (j & (w & s & Hw & Hs & Hk & ->)%Hj & <-).
      rewrite key_cells_union by done. split; [by exists w|exists s]. by rewrite Hk.
    + intros [(w & Hw & <-) (s & Hs & Hk)]. exists (w ∪ s). split.
      * apply Hj. by exists w, s.
      * by apply key_cells_union.
Qed.

(** ** The stages of the script *)

Lemma columns_assign c f df c' :
  c' ∈ columns (assign c f df) ↔ c' = c ∨ c' ∈ columns df.
Proof.
  unfold assign. simpl. destruct (decide (c ∈ columns df)).
  - split; [tauto|]. by intros [->|].
  - rewrite elem_of_app, list_elem_of_singleton. tauto.
Qed.

Lemma columns_with_year_month `{Calendar} df c :
  c ∈ columns (with_year_month df) ↔ c = "month" ∨ c = "year" ∨ c ∈ columns df.
Proof. unfold with_year_month. by rewrite !columns_assign. Qed.

Lemma sum_work_hour_Ok `{Calendar} df :
  "date" ∈ columns df → "branch_id" ∈ columns df → "work_hour" ∈ columns df →
  sum_work_hour df =
    Ok {| columns := ["year"; "month"; "branch_id"; "total_work_hour"];
          rows := (λ k, out_row ["year"; "month"; "branch_id"] "total_work_hour" k
                          (Some (sum_cells (cells "work_hour"
                             (group_rows ["year"; "month"; "branch_id"] k (dated df))))))
                    <$> group_keys ["year"; "month"; "branch_id"] (dated df) |}.
Proof.
  intros Hd Hb Hw. unfold sum_work_hour.
  rewrite require_all by (by repeat constructor). simpl.
  rewrite aggregate_Ok; [|done|..].
  - simpl. f_equal. unfold rename. f_equal.
    apply (rename_agg_frame_rows ["year"; "month"; "branch_id"] "work_hour" "total_work_hour").
    compute_done.
  - apply Forall_subseteq. repeat constructor; apply columns_with_year_month; auto.
  - apply columns_with_year_month; auto.
Qed.

Lemma get_salary_per_employee_Ok `{Calendar} df :
  "date" ∈ columns df → "branch_id" ∈ columns df → "employee_id" ∈ columns df →
  "salary" ∈ columns df →
  get_salary_per_employee df =
    Ok {| columns := ["year"; "month"; "branch_id"; "employee_id"; "salary_per_month"];
          rows := (λ k, out_row ["year"; "month"; "branch_id"; "employee_id"]
                          "salary_per_month" k
                          (max_cells (cells "salary"
                             (group_rows ["year"; "month"; "branch_id"; "employee_id"] k
                                (dated df)))))
                    <$> group_keys ["year"; "month"; "branch_id"; "employee_id"] (dated df) |}.
Proof.
  intros Hd Hb He Hs. unfold get_salary_per_employee.
  rewrite require_all by (by repeat constructor). simpl.
  rewrite aggregate_Ok; [|done|..].
  - simpl. f_equal. unfold rename. f_equal.
    apply (rename_agg_frame_rows ["year"; "month"; "branch_id"; "employee_id"]
             "salary" "salary_per_month").
    compute_done.
  - apply Forall_subseteq. repeat constructor; apply columns_with_year_month; auto.
  - apply columns_with_year_month; auto.
Qed.

Lemma sum_salary_per_branch_Ok df :
  ["year"; "month"; "branch_id"; "salary_per_month"] ⊆ columns df →
  sum_salary_per_branch df =
    Ok {| columns := ["year"; "month"; "branch_id"; "total_salary"];
          rows := (λ k, out_row ["year"; "month"; "branch_id"] "total_salary" k
                          (Some (sum_cells (cells "salary_per_month"
                             (group_rows ["year"; "month"; "branch_id"] k (rows df))))))
                    <$> group_keys ["year"; "month"; "branch_id"] (rows df) |}.
Proof.
  intros Hc. unfold sum_salary_per_branch.
  rewrite aggregate_Ok; [|done|..].
  - simpl. f_equal. unfold rename. f_equal.
    apply (rename_agg_frame_rows ["year"; "month"; "branch_id"]
             "salary_per_month" "total_salary").
    compute_done.
  - intros c Hin. apply Hc. rewrite !elem_of_cons in Hin. rewrite !elem_of_cons. tauto.
  - apply Hc. rewrite !elem_of_cons. tauto.
Qed.

(** Grouping the rows of an aggregate again, by a coarser key [g k]. *)
Lemma group_rows_fmap (f : list Qc → gmap string Qc) (g : list Qc → list Qc) keys ks k :
  (∀ k', k' ∈ ks → key_of keys (f k') = Some (g k')) →
  group_rows keys k (f <$> ks) = f <$> filter (λ k', g k' = k) ks.
Proof.
  unfold group_rows. induction ks as [|k0 ks IH]; intros Hf; [done|].
  rewrite fmap_cons, !filter_cons, (Hf k0) by left.
  rewrite IH by (intros; apply Hf; by right).
  destruct (decide (Some (g k0) = Some k)) as [[= Heq]|Hne];
    destruct (decide (g k0 = k)) as [Heq'|Hne']; try done.
  by destruct Hne; rewrite Heq'.
Qed.

Lemma group_keys_fmap (f : list Qc → gmap string Qc) (g : list Qc → list Qc) keys ks :
  (∀ k', k' ∈ ks → key_of keys (f k') = Some (g k')) →
  group_keys keys (f <$> ks) = sorted_keys (g <$> ks).
Proof.
  intros Hf. unfold group_keys. f_equal.
  induction ks as [|k0 ks IH]; [done|].
  rewrite !fmap_cons. csimpl. rewrite (Hf k0) by left.
  by rewrite IH by (intros; apply Hf; by right).
Qed.

Lemma dated_rows `{Calendar} df :
  dated df =
    (λ r, set_cell "month" (month_of (r !! "date"))
            (set_cell "year" (year_of (r !! "date")) r)) <$> rows df.
Proof.
  unfold dated, with_year_month, assign. simpl. rewrite <-list_fmap_compose.
  apply list_fmap_ext. intros _ r _. simpl.
  by rewrite lookup_set_cell_ne by done.
Qed.

Lemma stage1_key `{Calendar} df k4 :
  k4 ∈ group_keys ["year"; "month"; "branch_id"; "employee_id"] (dated df) →
  key_of ["year"; "month"; "branch_id"]
    (out_row ["year"; "month"; "branch_id"; "employee_id"] "salary_per_month" k4
       (salary_per_month df k4)) = Some (take 3 k4).
Proof.
  intros Hk%group_keys_length.
  apply (key_of_take 3 ["year"; "month"; "branch_id"; "employee_id"]).
  apply out_row_key; [compute_done..|done].
Qed.

Lemma salary_data_Ok `{Calendar} df :
  "date" ∈ columns df → "branch_id" ∈ columns df → "employee_id" ∈ columns df →
  "salary" ∈ columns df →
  salary_data df =
    Ok {| columns := ["year"; "month"; "branch_id"; "total_salary"];
          rows := (λ k3, out_row ["year"; "month"; "branch_id"] "total_salary" k3
                           (Some (total_salary df k3)))
                    <$> sorted_keys
                          (take 3 <$> group_keys ["year"; "month"; "branch_id"; "employee_id"]
                                        (dated df)) |}.
Proof.
  intros Hd Hb He Hs. unfold salary_data.
  rewrite get_salary_per_employee_Ok by done. simpl.
  rewrite sum_salary_per_branch_Ok
    by (simpl; apply Forall_subseteq; by repeat constructor).
  simpl. f_equal. f_equal.
  rewrite (group_keys_fmap _ (take 3)) by apply stage1_key.
  apply list_fmap_ext. intros _ k3 _. f_equal. f_equal. unfold total_salary. f_equal.
  rewrite (group_rows_fmap _ (take 3)) by apply stage1_key.
  unfold cells. rewrite <-list_fmap_compose. apply list_fmap_ext. intros _ k4 _. simpl.
  apply out_row_col.
Qed.

Lemma filter_eq_absent (ks : list (list Qc)) k :
  k ∉ ks → filter (λ k', k' = k) ks = [].
Proof.
  induction ks as [|k0 ks IH]; [done|]. intros [Hne Hnin]%not_elem_of_cons.
  rewrite filter_cons_False by done. by apply IH.
Qed.

Lemma filter_eq_NoDup (ks : list (list Qc)) k :
  NoDup ks → k ∈ ks → filter (λ k', k' = k) ks = [k].
Proof.
  induction 1 as [|k0 ks Hnin Hnd IH]; intros Hin; [by apply elem_of_nil in Hin|].
  rewrite filter_cons. destruct (decide (k0 = k)) as [->|Hne].
  - f_equal. by apply filter_eq_absent.
  - apply elem_of_cons in Hin as [->|Hin]; [done|]. by apply IH.
Qed.

(** An aggregate has exactly one row for each of its keys. *)
Lemma agg_rows_unique keys (f : list Qc → gmap string Qc) ks k :
  NoDup ks → (∀ k', k' ∈ ks → key_of keys (f k') = Some k') → k ∈ ks →
  group_rows keys k (f <$> ks) = [f k].
Proof.
  intros Hnd Hf Hk. rewrite (group_rows_fmap f id) by done.
  unfold id. by rewrite filter_eq_NoDup.
Qed.

Lemma max_cells_cons c cs : max_cells (c :: cs) = cell_max c (max_cells cs).
Proof. done. Qed.

Lemma max_cells_None cs : max_cells cs = None → ∀ x, Some x ∉ cs.
Proof.
  induction cs as [|[y|] cs IH]; rewrite ?max_cells_cons; intros Hm x Hin.
  - by apply elem_of_nil in Hin.
  - by destruct (max_cells cs).
  - apply elem_of_cons in Hin as [[=]|Hin]. by eapply IH.
Qed.

Lemma Qc_max_l x y : (x ≤ Qc_max x y)%Qc.
Proof. unfold Qc_max. case_bool_decide; [done|apply Qcle_refl]. Qed.

Lemma Qc_max_r x y : (y ≤ Qc_max x y)%Qc.
Proof.
  unfold Qc_max. case_bool_decide as Hle; [apply Qcle_refl|].
  by apply Qclt_le_weak, Qcnot_le_lt.
Qed.

Lemma Qc_max_cases x y : Qc_max x y = x ∨ Qc_max x y = y.
Proof. unfold Qc_max. case_bool_decide; auto. Qed.

(** [max_cells] is the greatest of the values present. *)
Lemma max_cells_Some cs m :
  max_cells cs = Some m → Some m ∈ cs ∧ ∀ x, Some x ∈ cs → (x ≤ m)%Qc.
Proof.
  revert m. induction cs as [|[y|] cs IH]; rewrite ?max_cells_cons; intros m Hm; [done|..].
  - destruct (max_cells cs) as [m'|] eqn:E; simpl in Hm; injection Hm as <-.
    + destruct (IH m' eq_refl) as [Hin Hmax]. split.
      * destruct (Qc_max_cases y m') as [->| ->]; [left|by right].
      * intros x [[= ->]|Hx]%elem_of_cons; [apply Qc_max_l|].
        trans m'; [by apply Hmax|apply Qc_max_r].
    + split; [left|].
      intros x [[= ->]|Hx]%elem_of_cons; [apply Qcle_refl|].
      by destruct (max_cells_None cs E x).
  - destruct (IH m Hm) as [Hin Hmax]. split; [by right|].
    intros x [[=]|Hx]%elem_of_cons. by apply Hmax.
Qed.

Lemma elem_of_employee_groups `{Calendar} df k3 k4 :
  k4 ∈ employee_groups df k3 ↔
  take 3 k4 = k3 ∧
  ∃ r, r ∈ dated df ∧ key_of ["year"; "month"; "branch_id"; "employee_id"] r = Some k4.
Proof. unfold employee_groups. by rewrite list_elem_of_filter, elem_of_group_keys. Qed.

Lemma stage1_group_cells `{Calendar} df k3 :
  cells "salary_per_month"
    (group_rows ["year"; "month"; "branch_id"] k3
       ((λ k, out_row ["year"; "month"; "branch_id"; "employee_id"] "salary_per_month" k
                (salary_per_month df k))
          <$> group_keys ["year"; "month"; "branch_id"; "employee_id"] (dated df)))
  = salary_per_month df <$> employee_groups df k3.
Proof.
  rewrite (group_rows_fmap _ (take 3)) by apply stage1_key.
  unfold cells, employee_groups. rewrite <-list_fmap_compose.
  apply list_fmap_ext. intros _ k4 _. simpl. apply out_row_col.
Qed.

Lemma branch_key_length `{Calendar} df k3 :
  k3 ∈ sorted_keys (take 3 <$> group_keys ["year"; "month"; "branch_id"; "employee_id"]
                                 (dated df)) →
  length k3 = 3.
Proof.
  intros (k4 & -> & Hk4%group_keys_length)%elem_of_sorted_keys%list_elem_of_fmap.
  rewrite length_take, Hk4. done.
Qed.

(** C9. The salary aggregation composes two stages.  Stage 1 keeps one row
    per (year, month, branch, employee) of the dated entries, holding the
    maximum salary of that group as salary_per_month.  Stage 2 keeps exactly
    one row per (year, month, branch) that has a contributing entry, holding
    as total_salary the sum of the salary_per_month of the stage-1 rows of
    that key, which is the sum over its employee groups of their maximum
    salary; year and month are those of the entry date. *)
Theorem salary_data_two_stages `{Calendar} df :
  "date" ∈ columns df → "branch_id" ∈ columns df → "employee_id" ∈ columns df →
  "salary" ∈ columns df →
  ∃ S1 S,
    get_salary_per_employee df = Ok S1 ∧ sum_salary_per_branch S1 = Ok S ∧
    salary_data df = Ok S ∧
    dated df = (λ r, set_cell "month" (month_of (r !! "date"))
                       (set_cell "year" (year_of (r !! "date")) r)) <$> rows df ∧
    (∀ k4, (∃ r, r ∈ dated df ∧
                 key_of ["year"; "month"; "branch_id"; "employee_id"] r = Some k4) →
       ∃ r1, group_rows ["year"; "month"; "branch_id"; "employee_id"] k4 (rows S1) = [r1] ∧
             r1 !! "salary_per_month" =
               max_cells (cells "salary"
                 (group_rows ["year"; "month"; "branch_id"; "employee_id"] k4 (dated df)))) ∧
    (∀ k3, (∃ r k4, r ∈ dated df ∧
                    key_of ["year"; "month"; "branch_id"; "employee_id"] r = Some k4 ∧
                    take 3 k4 = k3) →
       ∃ s ks4,
         group_rows ["year"; "month"; "branch_id"] k3 (rows S) = [s] ∧
         NoDup ks4 ∧
         (∀ k4, k4 ∈ ks4 ↔
                take 3 k4 = k3 ∧
                ∃ r, r ∈ dated df ∧
                     key_of ["year"; "month"; "branch_id"; "employee_id"] r = Some k4) ∧
         s !! "total_salary" =
           Some (sum_cells (cells "salary_per_month"
                   (group_rows ["year"; "month"; "branch_id"] k3 (rows S1)))) ∧
         s !! "total_salary" =
           Some (sum_cells
                   ((λ k4, max_cells (cells "salary"
                      (group_rows ["year"; "month"; "branch_id"; "employee_id"] k4 (dated df))))
                      <$> ks4))) ∧
    (∀ s, s ∈ rows S →
       ∃ k3, key_of ["year"; "month"; "branch_id"] s = Some k3 ∧
             ∃ r k4, r ∈ dated df ∧
                     key_of ["year"; "month"; "branch_id"; "employee_id"] r = Some k4 ∧
                     take 3 k4 = k3) ∧
    (∀ cs m, max_cells cs = Some m → Some m ∈ cs ∧ ∀ x, Some x ∈ cs → (x ≤ m)%Qc).
Proof.
  intros Hd Hb He Hs.
  pose proof (get_salary_per_employee_Ok df Hd Hb He Hs) as H1.
  pose proof (salary_data_Ok df Hd Hb He Hs) as H2.
  eexists _, _. split; [exact H1|]. split.
  { unfold salary_data in H2. rewrite H1 in H2. exact H2. }
  split; [exact H2|]. split; [apply dated_rows|]. simpl.
  assert (∀ k3, (∃ r k4, r ∈ dated df ∧
                    key_of ["year"; "month"; "branch_id"; "employee_id"] r = Some k4 ∧
                    take 3 k4 = k3) ↔
                k3 ∈ sorted_keys (take 3 <$> group_keys
                       ["year"; "month"; "branch_id"; "employee_id"] (dated df))) as Hk3.
  { intros k3. rewrite elem_of_sorted_keys, list_elem_of_fmap.
    split.
    - intros (r & k4 & Hr & Hk & <-). exists k4. split; [done|].
      apply elem_of_group_keys. by exists r.
    - intros (k4 & -> & (r & Hr & Hk)%elem_of_group_keys). by exists r, k4. }
  split_and!.
  - intros k4 Hk4%elem_of_group_keys. eexists. split; [|apply out_row_col].
    apply (agg_rows_unique _ (λ k, out_row _ _ k _)); [apply group_keys_NoDup| |done].
    intros k' Hk'%group_keys_length. apply out_row_key; [compute_done..|done].
  - intros k3 Hin%Hk3. eexists _, (employee_groups df k3). split_and!.
    + apply (agg_rows_unique _ (λ k, out_row _ _ k _)); [apply sorted_keys_NoDup| |done].
      intros k' Hk'%branch_key_length. apply out_row_key; [compute_done..|done].
    + apply NoDup_filter, group_keys_NoDup.
    + apply elem_of_employee_groups.
    + rewrite out_row_col. unfold total_salary. do 2 f_equal. symmetry.
      apply stage1_group_cells.
    + by rewrite out_row_col.
  - intros s (k3 & -> & Hin)%list_elem_of_fmap. exists k3. split; [|by apply Hk3].
    apply out_row_key; [compute_done..|]. by eapply branch_key_length.
  - apply max_cells_Some.
Qed.

(** ** The joined frame *)

Lemma calculate_work_hour_Ok df :
  "checkin" ∈ columns df → "checkout" ∈ columns df →
  calculate_work_hour df = Ok (with_work_hour df).
Proof.
  intros. unfold calculate_work_hour. by rewrite require_all by (by repeat constructor).
Qed.

Lemma work_hour_data_Ok `{Calendar} df :
  "date" ∈ columns df → "branch_id" ∈ columns df →
  "checkin" ∈ columns df → "checkout" ∈ columns df →
  work_hour_data df =
    Ok {| columns := ["year"; "month"; "branch_id"; "total_work_hour"];
          rows := hours_row df <$> hours_keys df |}.
Proof.
  intros Hd Hb Hci Hco. unfold work_hour_data.
  rewrite calculate_work_hour_Ok by done. simpl.
  rewrite sum_work_hour_Ok; [done|unfold with_work_hour; apply columns_assign; auto..].
Qed.

Lemma key_cells_Some keys r k : key_of keys r = Some k ↔ key_cells keys r = Some <$> k.
Proof.
  rewrite key_of_Some. unfold key_cells. revert k.
  induction keys as [|c keys IH]; intros [|y k]; rewrite ?fmap_cons, ?fmap_nil.
  - split; [done|constructor].
  - split; [by inversion 1|done].
  - split; [by inversion 1|done].
  - rewrite Forall2_cons, IH. split; [by intros [-> ->]|]. by intros [= -> ->].
Qed.

Lemma same_key_iff keys l r k k' :
  key_of keys l = Some k → key_of keys r = Some k' → same_key keys l r ↔ k = k'.
Proof.
  intros Hl%key_cells_Some Hr%key_cells_Some. unfold same_key, key_cells in *.
  rewrite Hl, Hr. split; [|by intros ->]. apply (inj (fmap Some)).
Qed.

Lemma filter_same_key (fs : list Qc → gmap string Qc) keys l k (ks : list (list Qc)) :
  key_of keys l = Some k → (∀ k', k' ∈ ks → key_of keys (fs k') = Some k') →
  filter (same_key keys l) (fs <$> ks) = fs <$> filter (λ k', k' = k) ks.
Proof.
  intros Hl. induction ks as [|k0 ks IH]; intros Hf; [done|].
  rewrite fmap_cons, !filter_cons. rewrite IH by (intros; apply Hf; by right).
  pose proof (same_key_iff keys l (fs k0) k k0 Hl (Hf k0 ltac:(left))) as Hiff.
  destruct (decide (same_key keys l (fs k0))) as [Hs|Hs];
    destruct (decide (k0 = k)) as [Heq|Hne]; try done.
  - by destruct Hne; symmetry; apply Hiff.
  - by destruct Hs; apply Hiff.
Qed.

(** Joining two aggregates over the same key columns. *)
Lemma merge_agg_rows (fw fs : list Qc → gmap string Qc) keys (ksW ksS : list (list Qc)) :
  NoDup ksS →
  (∀ k, k ∈ ksW → key_of keys (fw k) = Some k) →
  (∀ k, k ∈ ksS → key_of keys (fs k) = Some k) →
  (l ← fw <$> ksW; r ← filter (same_key keys l) (fs <$> ksS); [l ∪ r])
  = (λ k, fw k ∪ fs k) <$> filter (λ k, k ∈ ksS) ksW.
Proof.
  intros Hnd HW HS. induction ksW as [|k ksW IH]; [done|].
  rewrite fmap_cons, bind_cons, filter_cons.
  rewrite IH by (intros; apply HW; by right).
  rewrite (filter_same_key fs keys (fw k) k) by (by try apply HW; try left).
  destruct (decide (k ∈ ksS)) as [Hin|Hnin].
  - by rewrite filter_eq_NoDup.
  - by rewrite filter_eq_absent.
Qed.

Lemma hours_keys_length `{Calendar} df k : k ∈ hours_keys df → length k = 3.
Proof. apply group_keys_length. Qed.

Lemma hours_row_key `{Calendar} df k :
  k ∈ hours_keys df → key_of ["year"; "month"; "branch_id"] (hours_row df k) = Some k.
Proof. intros Hk%hours_keys_length. apply out_row_key; [compute_done..|done]. Qed.

Lemma salary_row_key `{Calendar} df k :
  k ∈ salary_keys df → key_of ["year"; "month"; "branch_id"] (salary_row df k) = Some k.
Proof. intros Hk%branch_key_length. apply out_row_key; [compute_done..|done]. Qed.

Lemma joined_keys_NoDup `{Calendar} df : NoDup (joined_keys df).
Proof. apply NoDup_filter, group_keys_NoDup. Qed.

Lemma elem_of_joined_keys `{Calendar} df k :
  k ∈ joined_keys df ↔ k ∈ hours_keys df ∧ k ∈ salary_keys df.
Proof. unfold joined_keys. rewrite list_elem_of_filter. tauto. Qed.

Lemma joined_Ok `{Calendar} df :
  "date" ∈ columns df → "branch_id" ∈ columns df → "employee_id" ∈ columns df →
  "salary" ∈ columns df → "checkin" ∈ columns df → "checkout" ∈ columns df →
  joined_work_hour_salary_data df =
    Ok {| columns := ["year"; "month"; "branch_id"; "total_work_hour"; "total_salary"];
          rows := joined_row df <$> joined_keys df |}.
Proof.
  intros Hd Hb He Hs Hci Hco. unfold joined_work_hour_salary_data.
  rewrite work_hour_data_Ok, salary_data_Ok by done. simpl.
  edestruct merge_Ok as (J & -> & HJc & HJr); [..|destruct J; simpl in *; subst; f_equal].
  - simpl. by apply Forall_subseteq; repeat constructor.
  - simpl. by apply Forall_subseteq; repeat constructor.
  - done.
  - f_equal. apply merge_agg_rows.
    + apply sorted_keys_NoDup.
    + apply hours_row_key.
    + apply salary_row_key.
Qed.

Section joined_row.
Context `{Calendar} (df : DataFrame) (k : list Qc).
Hypothesis k_joined : k ∈ joined_keys df.

Lemma joined_row_key : key_of ["year"; "month"; "branch_id"] (joined_row df k) = Some k.
Proof using All.
  apply elem_of_joined_keys in k_joined as [Hh Hs].
  apply key_cells_Some. unfold joined_row. rewrite key_cells_union.
  - by apply key_cells_Some, hours_row_key.
  - by apply (same_key_iff _ _ _ k k); [apply hours_row_key|apply salary_row_key|].
Qed.

Lemma joined_row_hours : joined_row df k !! "total_work_hour" = Some (total_hours df k).
Proof using Type. apply lookup_union_Some_l, out_row_col. Qed.

Lemma joined_row_salary : joined_row df k !! "total_salary" = Some (total_salary df k).
Proof using Type.
  unfold joined_row. rewrite lookup_union_r; [apply out_row_col|].
  apply out_row_other; [compute_done|done].
Qed.
End joined_row.

(** ** Signs *)

Lemma Qcmult_nonneg x y : (0 ≤ x → 0 ≤ y → 0 ≤ x * y)%Qc.
Proof.
  intros Hx Hy. rewrite <-(Qcmult_0_l y). by apply Qcmult_le_compat_r.
Qed.

Lemma Qcinv_nonneg x : (0 ≤ x → 0 ≤ / x)%Qc.
Proof.
  unfold Qcle. simpl. intros Hx.
  apply Qle_trans with (/ x)%Q; [apply Qinv_le_0_compat; exact Hx|].
  apply Qle_lteq. right. symmetry. apply Qred_correct.
Qed.

Lemma Qcdiv_nonneg x y : (0 ≤ x → 0 ≤ y → 0 ≤ x / y)%Qc.
Proof. intros Hx Hy. by apply Qcmult_nonneg, Qcinv_nonneg. Qed.

Lemma num_nonneg z : (0 ≤ z)%Z → (0 ≤ num z)%Qc.
Proof.
  intros Hz. unfold Qcle. change (inject_Z 0 <= inject_Z z)%Q. by rewrite <-Zle_Qle.
Qed.

Lemma rint_ge_floor (q : Qc) : (Qfloor q ≤ rint q)%Z.
Proof. unfold rint. repeat case_match; lia. Qed.

Lemma rint_nonneg q : (0 ≤ q)%Qc → (0 ≤ rint q)%Z.
Proof.
  intros Hq. etrans; [|apply rint_ge_floor].
  change 0%Z with (Qfloor 0). by apply Qfloor_resp_le.
Qed.

Lemma round2_nonneg q : (0 ≤ q)%Qc → (0 ≤ round2 q)%Qc.
Proof.
  intros Hq. unfold round2. apply Qcdiv_nonneg; [|by apply num_nonneg].
  apply num_nonneg, rint_nonneg, Qcmult_nonneg; [done|by apply num_nonneg].
Qed.

Lemma worked_hours_nonneg checkin checkout : (0 ≤ worked_hours checkin checkout)%Qc.
Proof.
  unfold worked_hours. destruct checkin as [ci|], checkout as [co|]; try apply Qcle_refl.
  case_decide as Hlt; [apply Qcle_refl|].
  apply Qcdiv_nonneg; [|by apply num_nonneg].
  unfold Qcminus. apply (proj1 (Qcle_minus_iff ci co)). by apply Qcnot_lt_le.
Qed.

Lemma sum_cells_nonneg cs : (∀ x, Some x ∈ cs → (0 ≤ x)%Qc) → (0 ≤ sum_cells cs)%Qc.
Proof.
  unfold sum_cells. induction cs as [|c cs IH]; simpl; intros Hcs; [apply Qcle_refl|].
  apply Qcplus_nonneg_nonneg.
  - destruct c as [x|]; simpl; [apply Hcs; left|apply Qcle_refl].
  - apply IH. intros x Hx. apply Hcs. by right.
Qed.

Lemma with_work_hour_nonneg df r :
  r ∈ rows (with_work_hour df) → ∃ h, r !! "work_hour" = Some h ∧ (0 ≤ h)%Qc.
Proof.
  intros (r0 & -> & _)%list_elem_of_fmap. eexists.
  rewrite lookup_set_cell, work_hour_worked_hours. split; [done|].
  apply worked_hours_nonneg.
Qed.

Lemma total_hours_nonneg `{Calendar} df k : (0 ≤ total_hours df k)%Qc.
Proof.
  apply sum_cells_nonneg. intros x (r & Hx & [_ Hr]%list_elem_of_filter)%list_elem_of_fmap.
  rewrite dated_rows in Hr. apply list_elem_of_fmap in Hr as (r0 & -> & Hr0).
  rewrite !lookup_set_cell_ne in Hx by done.
  destruct (with_work_hour_nonneg df r0 Hr0) as (h & Hh & Hle). congruence.
Qed.

(** ** The final frame *)

Lemma lookup_select (fields : list string) (r : gmap string Qc) c :
  c ∈ fields → filter (λ kv : string * Qc, kv.1 ∈ fields) r !! c = r !! c.
Proof.
  intros Hc. rewrite map_lookup_filter. destruct (r !! c) as [x|]; [|done].
  simpl. by rewrite option_guard_True.
Qed.

Lemma key_cells_ext keys (r r' : gmap string Qc) :
  (∀ c, c ∈ keys → r !! c = r' !! c) → key_cells keys r = key_cells keys r'.
Proof.
  intros Hrr. unfold key_cells. apply list_fmap_ext.
  intros i c Hc. apply Hrr. by eapply list_elem_of_lookup_2.
Qed.

Lemma calculate_salary_per_hour_Ok df :
  "total_work_hour" ∈ columns df → "total_salary" ∈ columns df →
  calculate_salary_per_hour df =
    Ok (assign "salary_per_hour"
          (λ r, salary_per_hour (r !! "total_salary") (r !! "total_work_hour")) df).
Proof.
  intros. unfold calculate_salary_per_hour.
  by rewrite require_all by (by repeat constructor).
Qed.

Lemma salary_per_hour_data_Ok `{Calendar} df :
  "date" ∈ columns df → "branch_id" ∈ columns df → "employee_id" ∈ columns df →
  "salary" ∈ columns df → "checkin" ∈ columns df → "checkout" ∈ columns df →
  salary_per_hour_data df =
    Ok {| columns := ["year"; "month"; "branch_id"; "salary_per_hour"];
          rows := final_row df <$> joined_keys df |}.
Proof.
  intros Hd Hb He Hs Hci Hco. unfold salary_per_hour_data.
  rewrite joined_Ok by done. cbn [mbind result_bind].
  rewrite calculate_salary_per_hour_Ok by (simpl; by repeat constructor).
  cbn [mbind result_bind].
  unfold select_fields. rewrite require_all by (simpl; by repeat constructor). simpl.
  f_equal. f_equal. rewrite <-!list_fmap_compose.
  apply list_fmap_ext. intros _ k Hk%list_elem_of_lookup_2. simpl.
  unfold final_row. by rewrite joined_row_hours, joined_row_salary.
Qed.

Lemma final_row_key `{Calendar} df k :
  k ∈ joined_keys df → key_of ["year"; "month"; "branch_id"] (final_row df k) = Some k.
Proof.
  intros Hk. apply key_cells_Some.
  rewrite <-(proj1 (key_cells_Some _ _ _) (joined_row_key df k Hk)).
  apply key_cells_ext. intros c Hc. unfold final_row.
  rewrite lookup_select by (rewrite !elem_of_cons in Hc; rewrite !elem_of_cons; tauto).
  apply lookup_set_cell_ne. intros <-.
  rewrite !elem_of_cons, elem_of_nil in Hc. by destruct Hc as [|[|[|]]].
Qed.

Lemma final_row_rate `{Calendar} df k :
  final_row df k !! "salary_per_hour" =
    salary_per_hour (Some (total_salary df k)) (Some (total_hours df k)).
Proof.
  unfold final_row. rewrite lookup_select by (by repeat constructor).
  apply lookup_set_cell.
Qed.

Lemma salary_per_hour_cases s h :
  (h = 0%Qc ∧ salary_per_hour (Some s) (Some h) = Some 0%Qc) ∨
  (h ≠ 0%Qc ∧ cell_div (Some s) (Some h) = Some (s / h)%Qc ∧
   salary_per_hour (Some s) (Some h) = Some (round2 (s / h))).
Proof.
  destruct (decide (h = 0%Qc)) as [->|Hne]; [by left|right].
  split_and!; [done| |by apply salary_per_hour_nonzero].
  unfold cell_div. by rewrite decide_False.
Qed.

(** ** Invariants of the output *)

(** C7, as the code has it.  In the final frame the (year, month, branch)
    keys are pairwise distinct; every row comes from a joined row of the same
    key whose total work hour is non-negative; its salary_per_hour is 0
    whenever that total is 0, and non-negative whenever the total salary is.
    Every entry's work hour is non-negative. *)
Theorem salary_per_hour_data_invariants `{Calendar} df :
  "date" ∈ columns df → "branch_id" ∈ columns df → "employee_id" ∈ columns df →
  "salary" ∈ columns df → "checkin" ∈ columns df → "checkout" ∈ columns df →
  ∃ W J out,
    calculate_work_hour df = Ok W ∧
    joined_work_hour_salary_data df = Ok J ∧
    salary_per_hour_data df = Ok out ∧
    NoDup (key_of ["year"; "month"; "branch_id"] <$> rows out) ∧
    Forall2 (λ j o, ∃ k h s q,
               key_of ["year"; "month"; "branch_id"] j = Some k ∧
               key_of ["year"; "month"; "branch_id"] o = Some k ∧
               j !! "total_work_hour" = Some h ∧ j !! "total_salary" = Some s ∧
               o !! "salary_per_hour" = Some q ∧
               (0 ≤ h)%Qc ∧ (h = 0%Qc → q = 0%Qc) ∧ ((0 ≤ s)%Qc → (0 ≤ q)%Qc))
            (rows J) (rows out) ∧
    (∀ r, r ∈ rows W → ∃ h, r !! "work_hour" = Some h ∧ (0 ≤ h)%Qc).
Proof.
  intros Hd Hb He Hs Hci Hco. eexists _, _, _.
  split; [by apply calculate_work_hour_Ok|].
  split; [by apply joined_Ok|].
  split; [by apply salary_per_hour_data_Ok|]. cbn [rows]. split_and!.
  - rewrite <-list_fmap_compose.
    rewrite (list_fmap_ext _ Some (joined_keys df)).
    + apply (NoDup_fmap_2 Some), joined_keys_NoDup.
    + intros _ k Hk%list_elem_of_lookup_2. by apply final_row_key.
  - apply Forall2_fmap, Forall_Forall2_diag, Forall_forall. intros k Hk.
    exists k, (total_hours df k), (total_salary df k).
    pose proof (total_hours_nonneg df k) as Hh.
    destruct (salary_per_hour_cases (total_salary df k) (total_hours df k))
      as [[H0 Hq]|(Hne & _ & Hq)]; eexists;
      (split_and!; [by apply joined_row_key|by apply final_row_key|apply joined_row_hours
                   |apply joined_row_salary|rewrite final_row_rate; exact Hq|done|..]).
    + done.
    + intros _. apply Qcle_refl.
    + done.
    + intros Hsal. by apply round2_nonneg, Qcdiv_nonneg.
  - apply with_work_hour_nonneg.
Qed.

(** C10.  For every joined row the total work hour and the total salary are
    numbers, and so is the stored salary_per_hour: it is 0 when the total
    work hour is 0, and otherwise the rounded quotient, whose divisor is then
    non-zero. *)
Theorem salary_per_hour_defined `{Calendar} df :
  "date" ∈ columns df → "branch_id" ∈ columns df → "employee_id" ∈ columns df →
  "salary" ∈ columns df → "checkin" ∈ columns df → "checkout" ∈ columns df →
  ∃ J R,
    joined_work_hour_salary_data df = Ok J ∧
    calculate_salary_per_hour J = Ok R ∧
    Forall2 (λ j r, ∃ h s,
               j !! "total_work_hour" = Some h ∧ j !! "total_salary" = Some s ∧
               ((h = 0%Qc ∧ r !! "salary_per_hour" = Some 0%Qc) ∨
                (h ≠ 0%Qc ∧ cell_div (Some s) (Some h) = Some (s / h)%Qc ∧
                 r !! "salary_per_hour" = Some (round2 (s / h)))))
            (rows J) (rows R).
Proof.
  intros Hd Hb He Hs Hci Hco. eexists _, _.
  split; [by apply joined_Ok|].
  split; [apply calculate_salary_per_hour_Ok; simpl; by repeat constructor|].
  cbn [rows assign]. apply Forall2_fmap_r, Forall_Forall2_diag, Forall_forall.
  intros j (k & -> & Hk)%list_elem_of_fmap.
  exists (total_hours df k), (total_salary df k).
  split; [by apply joined_row_hours|]. split; [by apply joined_row_salary|].
  rewrite lookup_set_cell, joined_row_hours, joined_row_salary.
  destruct (salary_per_hour_cases (total_salary df k) (total_hours df k))
    as [[H0 Hq]|(Hne & Hdiv & Hq)]; [by left|by right].
Qed.

(** ** Employee cleaning *)

(** C5, as the code has it.  On an employee file whose identifier column is
    spelled [employe_id], with branch_id and salary columns and a salary
    wherever both keys are present, the cleaning stage succeeds and keeps for
    every (employe_id, branch_id) pair exactly the first row with the highest
    salary. *)
Theorem employee_data_highest_salary csv :
  "employe_id" ∈ columns csv → "branch_id" ∈ columns csv → "salary" ∈ columns csv →
  (∀ r, r ∈ rows csv → is_Some (key_of ["employe_id"; "branch_id"] r) →
        is_Some (r !! "salary")) →
  ∃ out, employee_data csv = Ok out ∧
    (∀ k, (∃ r, r ∈ rows csv ∧ key_of ["employe_id"; "branch_id"] r = Some k) →
          ∃ r, group_rows ["employe_id"; "branch_id"] k (rows out) = [r] ∧
               chosen ["employe_id"; "branch_id"] "salary" false (rows csv) k r) ∧
    (∀ r, r ∈ rows out →
          ∃ k, key_of ["employe_id"; "branch_id"] r = Some k ∧
               ∃ r', r' ∈ rows csv ∧ key_of ["employe_id"; "branch_id"] r' = Some k).
Proof.
  intros Hid Hb Hs Hsal.
  destruct (remove_duplicate_data_rows ["employe_id"; "branch_id"] "salary" false csv)
    as (out & Hout & _ & Hall); [done| |done..|].
  { by apply Forall_subseteq; repeat constructor. }
  exists out. split_and!; [done|..].
  - intros k Hk%elem_of_group_keys.
    apply (group_rows_unique (chosen ["employe_id"; "branch_id"] "salary" false (rows csv))
             ["employe_id"; "branch_id"]
             (group_keys ["employe_id"; "branch_id"] (rows csv)));
      [apply group_keys_NoDup| |done].
    eapply Forall2_impl; [done|]. intros k' r Hc. split; [apply Hc|done].
  - intros r [n Hn]%list_elem_of_lookup.
    destruct (Forall2_lookup_r _ _ _ _ _ Hall Hn) as (k & Hk & Hc).
    exists k. split; [apply Hc|].
    apply elem_of_group_keys. by eapply list_elem_of_lookup_2.
Qed.

(** ** Worked examples *)

(** C1, as stated, fails: an entry dated before its join date, with no
    resign date, passes the Validity Filter. *)
Lemma filter_valid_data_ignores_join_date :
  ∃ out, filter_valid_data early_entries = Ok out ∧
    early_entry ∈ rows out ∧
    cell_le (early_entry !! "join_date") (early_entry !! "date") = false.
Proof.
  exists early_entries. split; [reflexivity|]. split; [left|]. by vm_compute.
Qed.

(** C5, as stated, fails: on a file whose identifier column is named
    [employee_id], as the declared schema has it, the cleaning stage raises
    a missing-column error. *)
Lemma employee_data_declared_schema_fails :
  employee_data declared_employees_csv = Raise (KeyError "employe_id").
Proof. reflexivity. Qed.

(** C7, as stated, fails: a branch whose only employee has salary 0 and
    worked 8 hours gets salary_per_hour 0 although its total hours are 8; and
    a negative salary gives a negative salary_per_hour. *)
Lemma salary_per_hour_zero_with_hours :
  observe "total_work_hour" (@joined_work_hour_salary_data gregorian unpaid_entries)
    = Some [Some (8 # 1)] ∧
  observe "salary_per_hour" (@salary_per_hour_data gregorian unpaid_entries)
    = Some [Some (0 # 1)] ∧
  observe "salary_per_hour" (@salary_per_hour_data gregorian negative_salary_entries)
    = Some [Some (-375 # 1)].
Proof. split_and!; by vm_compute. Qed.

(** The end-to-end scenario: of two timesheets of one employee and day the
    one with the lowest identifier is kept; 8 hours and a salary of 3000
    give 375 per hour. *)
Example dedup_keeps_lowest_timesheet :
  observe "timesheet_id"
    (remove_duplicate_data ["employee_id"; "date"] "timesheet_id" true june_entries)
  = Some [Some (10 # 1)].
Proof. by vm_compute. Qed.

Example june_salary_per_hour :
  observe "salary_per_hour"
    (df ← remove_duplicate_data ["employee_id"; "date"] "timesheet_id" true june_entries;
     @salary_per_hour_data gregorian df)
  = Some [Some (375 # 1)].
Proof. by vm_compute. Qed.

Example joined_example_rates :
  observe "salary_per_hour" (calculate_salary_per_hour joined_example)
  = Some [Some (25 # 2); Some (0 # 1)].
Proof. by vm_compute. Qed.

Example employee_data_keeps_highest :
  observe "salary" (employee_data employees_csv) = Some [Some (3000 # 1); Some (2000 # 1)].
Proof. by vm_compute. Qed.

(** ** The theorems at the examples *)

Lemma ordering_present keys ord (rs : list (gmap string Qc)) :
  Forall (λ r, is_Some (r !! ord)) rs →
  ∀ r, r ∈ rs → is_Some (key_of keys r) → is_Some (r !! ord).
Proof. intros Hall r Hr _. by eapply Forall_forall in Hall. Qed.

Lemma filter_valid_data_keeps_witness :
  "date" ∈ columns early_entries ∧ "resign_date" ∈ columns early_entries ∧
  ∃ out, filter_valid_data early_entries = Ok out ∧ columns out = columns early_entries ∧
    ∀ r, r ∈ rows out ↔
         r ∈ rows early_entries ∧
         ((∃ d e, r !! "date" = Some d ∧ r !! "resign_date" = Some e ∧ (d ≤ e)%Qc)
          ∨ r !! "resign_date" = None).
Proof.
  assert ("date" ∈ columns early_entries) as H1 by (by repeat constructor).
  assert ("resign_date" ∈ columns early_entries) as H2 by (by repeat constructor).
  split_and!; [done..|]. exact (filter_valid_data_keeps early_entries H1 H2).
Defined.

Lemma calculate_work_hour_hours_witness :
  "checkin" ∈ columns june_entries ∧ "checkout" ∈ columns june_entries ∧
  ∃ out, calculate_work_hour june_entries = Ok out ∧
    length (rows out) = length (rows june_entries).
Proof.
  assert ("checkin" ∈ columns june_entries) as H1 by (by repeat constructor).
  assert ("checkout" ∈ columns june_entries) as H2 by (by repeat constructor).
  split_and!; [done..|].
  destruct (calculate_work_hour_hours june_entries H1 H2) as (out & Hout & Hlen & _).
  by exists out.
Defined.


Lemma remove_duplicate_data_one_per_key_witness :
  ∃ out, remove_duplicate_data ["employee_id"; "date"] "timesheet_id" true june_entries
         = Ok out ∧
    ∀ r, r ∈ rows out →
         ∃ k, key_of ["employee_id"; "date"] r = Some k ∧
              ∃ r', r' ∈ rows june_entries ∧ key_of ["employee_id"; "date"] r' = Some k.
Proof.
  destruct (remove_duplicate_data_one_per_key ["employee_id"; "date"] "timesheet_id" true
              june_entries) as (out & Hout & _ & Honly & _).
  - done.
  - by apply Forall_subseteq; repeat constructor.
  - by repeat constructor.
  - apply ordering_present. repeat constructor; by eexists.
  - by exists out.
Defined.

Lemma employee_data_highest_salary_witness :
  ∃ out, employee_data employees_csv = Ok out ∧
    ∀ r, r ∈ rows out →
         ∃ k, key_of ["employe_id"; "branch_id"] r = Some k ∧
              ∃ r', r' ∈ rows employees_csv ∧ key_of ["employe_id"; "branch_id"] r' = Some k.
Proof.
  destruct (employee_data_highest_salary employees_csv) as (out & Hout & _ & Honly).
  - by repeat constructor.
  - by repeat constructor.
  - by repeat constructor.
  - apply ordering_present. repeat constructor; by eexists.
  - by exists out.
Defined.

Lemma merge_inner_join_witness :
  ∃ J, merge hours_example salary_example ["year"; "month"; "branch_id"] = Ok J ∧
    ∀ k, (∃ j, j ∈ rows J ∧ key_cells ["year"; "month"; "branch_id"] j = k) ↔
         (∃ w, w ∈ rows hours_example ∧ key_cells ["year"; "month"; "branch_id"] w = k) ∧
         (∃ s, s ∈ rows salary_example ∧ key_cells ["year"; "month"; "branch_id"] s = k).
Proof.
  destruct (merge_inner_join hours_example salary_example eq_refl eq_refl)
    as (J & HJ & _ & Hkeys).
  by exists J.
Defined.

Lemma salary_per_hour_data_invariants_witness :
  ∃ out, @salary_per_hour_data gregorian june_entries = Ok out ∧
    NoDup (key_of ["year"; "month"; "branch_id"] <$> rows out).
Proof.
  destruct (@salary_per_hour_data_invariants gregorian june_entries)
    as (W & J & out & _ & _ & Hout & Hnd & _); [by repeat constructor..|].
  by exists out.
Defined.


Lemma salary_data_two_stages_witness :
  ∃ S1 S, @get_salary_per_employee gregorian june_entries = Ok S1 ∧
          sum_salary_per_branch S1 = Ok S ∧
          @salary_data gregorian june_entries = Ok S.
Proof.
  destruct (@salary_data_two_stages gregorian june_entries)
    as (S1 & S & H1 & H2 & H3 & _); [by repeat constructor..|].
  by exists S1, S.
Defined.

Lemma salary_per_hour_defined_witness :
  ∃ J R, @joined_work_hour_salary_data gregorian june_entries = Ok J ∧
         calculate_salary_per_hour J = Ok R ∧
         Forall (λ r, is_Some (r !! "salary_per_hour")) (rows R).
Proof.
  destruct (@salary_per_hour_defined gregorian june_entries)
    as (J & R & HJ & HR & Hall); [by repeat constructor..|].
  exists J, R. split_and!; [done..|].
  apply Forall_forall. intros r Hr.
  apply list_elem_of_lookup in Hr as [i Hi].
  destruct (Forall2_lookup_r _ _ _ _ _ Hall Hi) as (j & _ & h & s & _ & _ & Hcase).
  destruct Hcase as [[_ Hq]|(_ & _ & Hq)]; by eexists.
Defined.

(** * Further properties *)

(** ** When the Record Deduplicator returns *)

Lemma elem_of_group_cells keys ord k rs i c :
  (i, c) ∈ group_cells keys ord k rs ↔
  ∃ r, rs !! i = Some r ∧ key_of keys r = Some k ∧ c = r !! ord.
Proof.
  unfold group_cells. rewrite list_elem_of_fmap. split.
  - intros ([i' r] & [= -> ->] & [Hk Hi]%list_elem_of_filter).
    exists r. by apply elem_of_indexed in Hi.
  - intros (r & Hi & Hk & ->). exists (i, r). split; [done|].
    apply list_elem_of_filter. split; [done|]. by apply elem_of_indexed.
Qed.

Lemma group_cells_sorted keys ord k rs : StronglySorted label_lt (group_cells keys ord k rs).
Proof. apply (group_labels_sorted (λ ir, ir.2 !! ord)). Qed.

Lemma idx_extreme_inv asc g i :
  StronglySorted label_lt g → idx_extreme asc g = Some i → ∃ v, (i, Some v) ∈ g.
Proof.
  intros Hs. destruct asc; simpl; unfold idxmin, idxmax.
  - destruct (first_best Qc_ltb g) as [[i' v]|] eqn:E; [|done]. intros [= <-].
    exists v. by eapply (first_best_Some Qc_ltb Qc_ltb_irrefl Qc_ltb_asym Qc_ltb_negtrans).
  - destruct (first_best (flip Qc_ltb) g) as [[i' v]|] eqn:E; [|done]. intros [= <-].
    exists v.
    by eapply (first_best_Some (flip Qc_ltb) (λ v, Qc_ltb_irrefl v) (λ v w, Qc_ltb_asym w v)
                 (λ u w v H1 H2, Qc_ltb_negtrans v w u H2 H1)).
Qed.

Lemma idx_extreme_chosen keys ord asc rs k i :
  idx_extreme asc (group_cells keys ord k rs) = Some i →
  ∃ r, rs !! i = Some r ∧ chosen keys ord asc rs k r.
Proof.
  intros Hi.
  destruct (idx_extreme_inv asc _ i (group_cells_sorted keys ord k rs) Hi) as [v0 Hin0].
  destruct (idx_extreme_Some asc _ (group_cells_sorted keys ord k rs))
    as (i' & v & Hidx & Hin & Hmin); [by eauto|].
  rewrite Hi in Hidx. injection Hidx as <-.
  apply elem_of_group_cells in Hin as (r & Hr & Hk & Hv).
  exists r. split; [done|]. split; [done|]. exists i, v. split_and!; [done..|].
  intros j r' w Hj Hk' Hw. apply Hmin, elem_of_group_cells. by exists r'.
Qed.

Lemma idx_extreme_is_Some keys ord asc rs k :
  is_Some (idx_extreme asc (group_cells keys ord k rs)) ↔ has_ordering keys ord rs k.
Proof.
  split.
  - intros [i Hi]. destruct (idx_extreme_chosen keys ord asc rs k i Hi)
      as (r & Hr & Hk & i' & v & Hr' & Hv & _).
    exists r. split_and!; [by eapply list_elem_of_lookup_2|done|by eexists].
  - intros (r & [i Hi]%list_elem_of_lookup & Hk & v & Hv).
    destruct (idx_extreme_Some asc _ (group_cells_sorted keys ord k rs))
      as (i' & v' & Hidx & _); [|by eexists].
    exists i, v. apply elem_of_group_cells. by exists r.
Qed.

Lemma loc_inv df idx rs :
  loc df idx = Ok rs →
  Forall2 (λ oi r, ∃ i, oi = Some i ∧ rows df !! i = Some r) idx rs.
Proof.
  unfold loc. revert rs. induction idx as [|oi idx IH]; intros rs; cbn [foldr].
  - intros [= <-]. constructor.
  - destruct oi as [i|]; simpl; [|done].
    destruct (rows df !! i) as [r|] eqn:Hi; [|done].
    destruct (foldr _ (Ok []) idx) as [rs'|e]; simpl; [|done].
    intros [= <-]. constructor; [by exists i|by apply IH].
Qed.

Lemma loc_is_Ok df idx :
  is_Ok (loc df idx) ↔ Forall (λ oi, ∃ i, oi = Some i ∧ is_Some (rows df !! i)) idx.
Proof.
  split.
  - intros [rs Hrs%loc_inv]. induction Hrs as [|oi r idx rs (i & -> & Hi) _ IH];
      constructor; [|done]. exists i. split; [done|by eexists].
  - intros Hall. assert (∃ rs, Forall2 (λ oi r, ∃ i, oi = Some i ∧ rows df !! i = Some r)
                                  idx rs) as [rs Hrs].
    { apply Forall_exists_Forall2. eapply Forall_impl; [done|].
      intros oi (i & -> & r & Hr). by exists r, i. }
    exists rs. rewrite <-(list_fmap_id idx). apply loc_fmap_Ok.
    eapply Forall2_impl; [done|]. by intros oi r (i & -> & Hr); exists i.
Qed.

(** The body of [remove_duplicate_data] once its columns are known to exist. *)
Lemma remove_duplicate_data_unfold keys ord asc df :
  keys ≠ [] → keys ⊆ columns df → ord ∈ columns df →
  remove_duplicate_data keys ord asc df =
    rs ← loc df ((λ k, idx_extreme asc (group_cells keys ord k (rows df)))
                   <$> group_keys keys (rows df));
    Ok {| columns := columns df; rows := rs |}.
Proof.
  intros Hne Hsub Hord. unfold remove_duplicate_data.
  rewrite groupby_Ok by done. cbn [mbind result_bind].
  rewrite require_all by (by repeat constructor). cbn [mbind result_bind].
  by rewrite <-list_fmap_compose.
Qed.

Lemma remove_duplicate_data_columns keys ord asc df :
  is_Ok (remove_duplicate_data keys ord asc df) →
  keys ≠ [] ∧ keys ⊆ columns df ∧ ord ∈ columns df.
Proof.
  intros [out Hout]. unfold remove_duplicate_data in Hout.
  destruct keys as [|c keys]; [done|]. unfold groupby in Hout.
  destruct (require (c :: keys) df) as [[]|e] eqn:E1; [|done].
  cbn [mbind result_bind] in Hout.
  destruct (require [ord] df) as [[]|e] eqn:E2; [|done].
  apply require_Ok in E1, E2. split_and!; [done..|]. apply E2. left.
Qed.

(** What a returned frame holds: the chosen row of every group, in the
    order of the keys. *)
Lemma remove_duplicate_data_inv keys ord asc df out :
  remove_duplicate_data keys ord asc df = Ok out →
  columns out = columns df ∧
  Forall2 (chosen keys ord asc (rows df)) (group_keys keys (rows df)) (rows out).
Proof.
  intros Hout.
  destruct (remove_duplicate_data_columns keys ord asc df) as (Hne & Hsub & Hord);
    [by eexists|].
  rewrite remove_duplicate_data_unfold in Hout by done.
  destruct (loc df _) as [rs|e] eqn:Hloc; [|done]. injection Hout as <-.
  split; [done|]. cbn [rows]. apply loc_inv in Hloc.
  apply Forall2_fmap_l in Hloc. eapply Forall2_impl; [done|].
  intros k r (i & Hi & Hr). cbn in Hi.
  destruct (idx_extreme_chosen keys ord asc (rows df) k i Hi) as (r' & Hr' & Hc).
  by simplify_eq.
Qed.

(** X3.  [remove_duplicate_data] returns a frame exactly when the list of
    partition keys is not empty, every partition key and the ordering key
    name a column, and every group has a row with a value in the ordering
    column; in every other case it raises. *)
Theorem remove_duplicate_data_returns keys ord asc df :
  is_Ok (remove_duplicate_data keys ord asc df) ↔
  keys ≠ [] ∧ keys ⊆ columns df ∧ ord ∈ columns df ∧
  ∀ k, (∃ r, r ∈ rows df ∧ key_of keys r = Some k) →
       ∃ r, r ∈ rows df ∧ key_of keys r = Some k ∧ is_Some (r !! ord).
Proof.
  split.
  - intros Hok. destruct (remove_duplicate_data_columns _ _ _ _ Hok) as (Hne & Hsub & Hord).
    split_and!; [done..|]. intros k Hk%elem_of_group_keys.
    destruct Hok as [out Hout]. rewrite remove_duplicate_data_unfold in Hout by done.
    destruct (loc df _) as [rs|e] eqn:Hloc; [|done].
    assert (is_Ok (loc df ((λ k, idx_extreme asc (group_cells keys ord k (rows df)))
                             <$> group_keys keys (rows df)))) as Hall by (by eexists).
    apply loc_is_Ok in Hall. rewrite Forall_fmap in Hall.
    eapply Forall_forall in Hall as (i & Hi & _); [|done]. cbn in Hi.
    by apply (idx_extreme_is_Some keys ord asc); eexists.
  - intros (Hne & Hsub & Hord & Hgroups).
    rewrite remove_duplicate_data_unfold by done.
    assert (is_Ok (loc df ((λ k, idx_extreme asc (group_cells keys ord k (rows df)))
                             <$> group_keys keys (rows df)))) as [rs ->]; [|by eexists].
    apply loc_is_Ok. rewrite Forall_fmap. apply Forall_forall. intros k Hk. cbn.
    destruct (proj2 (idx_extreme_is_Some keys ord asc (rows df) k)) as [i Hi].
    { by apply Hgroups, elem_of_group_keys. }
    exists i. split; [done|].
    destruct (idx_extreme_chosen keys ord asc (rows df) k i Hi) as (r & Hr & _).
    by eexists.
Qed.


(** ** The Record Deduplicator applied twice, and its row order *)

Lemma sorted_keys_id ks : StronglySorted key_lt ks → sorted_keys ks = ks.
Proof.
  intros Hs. apply (StronglySorted_unique key_lt); [apply sorted_keys_sorted|done|].
  apply NoDup_Permutation;
    [apply sorted_keys_NoDup|by apply StronglySorted_key_lt_NoDup|].
  intros k. apply elem_of_sorted_keys.
Qed.

Lemma group_keys_sorted keys rs : StronglySorted key_lt (group_keys keys rs).
Proof. apply sorted_keys_sorted. Qed.

Lemma omap_key_of_Forall2 keys (ks : list (list Qc)) (rs : list (gmap string Qc)) :
  Forall2 (λ k r, key_of keys r = Some k) ks rs → omap (key_of keys) rs = ks.
Proof.
  induction 1 as [|k r ks rs Hk _ IH]; [done|]. csimpl. by rewrite Hk, IH.
Qed.

(** A frame with one row per key, in key order, is its own list of groups. *)
Lemma group_keys_own keys (ks : list (list Qc)) (rs : list (gmap string Qc)) :
  StronglySorted key_lt ks → Forall2 (λ k r, key_of keys r = Some k) ks rs →
  group_keys keys rs = ks.
Proof.
  intros Hs Hall. unfold group_keys.
  by rewrite (omap_key_of_Forall2 keys ks rs), sorted_keys_id.
Qed.

Lemma key_position keys (ks : list (list Qc)) (rs : list (gmap string Qc)) n i k r :
  NoDup ks → Forall2 (λ k r, key_of keys r = Some k) ks rs →
  ks !! n = Some k → rs !! i = Some r → key_of keys r = Some k → i = n.
Proof.
  intros Hnd Hall Hn Hi Hk.
  destruct (Forall2_lookup_r _ _ _ _ _ Hall Hi) as (k' & Hk' & Hkr).
  assert (k' = k) as -> by congruence.
  by eapply NoDup_lookup.
Qed.

(** X1.  [remove_duplicate_data] is idempotent: a frame it returned is
    returned unchanged when the method is applied to it again with the same
    arguments. *)
Theorem remove_duplicate_data_idempotent keys ord asc df out :
  remove_duplicate_data keys ord asc df = Ok out →
  remove_duplicate_data keys ord asc out = Ok out.
Proof.
  intros Hout.
  destruct (remove_duplicate_data_columns keys ord asc df) as (Hne & Hsub & Hord);
    [by eexists|].
  destruct (remove_duplicate_data_inv _ _ _ _ _ Hout) as [Hcols Hall].
  pose proof (group_keys_sorted keys (rows df)) as Hs.
  pose proof (group_keys_NoDup keys (rows df)) as Hnd.
  set (ks := group_keys keys (rows df)) in *.
  assert (Forall2 (λ k r, key_of keys r = Some k) ks (rows out)) as Hkeys.
  { eapply Forall2_impl; [done|]. by intros k r [Hk _]. }
  rewrite remove_duplicate_data_unfold by (by rewrite ?Hcols).
  rewrite (group_keys_own keys ks (rows out)) by done.
  rewrite (loc_fmap_Ok out _ ks (rows out)); [by destruct out|].
  apply Forall2_same_length_lookup. split; [by eapply Forall2_length|].
  intros n k r Hn Hr.
  destruct (Forall2_lookup_lr _ _ _ _ _ _ Hall Hn Hr) as (Hk & i0 & v & _ & Hv & _).
  destruct (proj2 (idx_extreme_is_Some keys ord asc (rows out) k)) as [i Hi].
  { exists r. split_and!; [by eapply list_elem_of_lookup_2|done|by eexists]. }
  destruct (idx_extreme_chosen keys ord asc (rows out) k i Hi) as (r' & Hr' & Hk' & _).
  assert (i = n) as -> by (by eapply (key_position keys ks (rows out))).
  by exists n.
Qed.

Lemma insert_key_length k ks : length (insert_key k ks) ≤ S (length ks).
Proof.
  induction ks as [|k0 ks IH]; simpl; [done|].
  destruct (key_compare k k0); simpl; lia.
Qed.

Lemma sorted_keys_length ks : length (sorted_keys ks) ≤ length ks.
Proof.
  induction ks as [|k ks IH]; simpl; [done|].
  etrans; [apply insert_key_length|lia].
Qed.

Lemma group_keys_count keys (rs : list (gmap string Qc)) :
  length (group_keys keys rs) ≤ length rs.
Proof.
  unfold group_keys. etrans; [apply sorted_keys_length|].
  induction rs as [|r rs IH]; csimpl; [done|].
  destruct (key_of keys r); simpl; lia.
Qed.

(** X2.  The rows [remove_duplicate_data] returns are rows of its input, at
    most as many, and they come in strictly ascending order of their
    partition keys (compared field by field), whatever the input order. *)
Theorem remove_duplicate_data_ordered keys ord asc df out :
  remove_duplicate_data keys ord asc df = Ok out →
  (∀ r, r ∈ rows out → r ∈ rows df) ∧
  length (rows out) ≤ length (rows df) ∧
  ∃ ks, key_of keys <$> rows out = Some <$> ks ∧
        StronglySorted (λ k k', list_compare Qccompare k k' = Lt) ks.
Proof.
  intros Hout. destruct (remove_duplicate_data_inv _ _ _ _ _ Hout) as [_ Hall].
  split_and!.
  - intros r [n Hn]%list_elem_of_lookup.
    destruct (Forall2_lookup_r _ _ _ _ _ Hall Hn) as (k & _ & _ & i & v & Hi & _).
    by eapply list_elem_of_lookup_2.
  - rewrite <-(Forall2_length _ _ _ Hall). apply group_keys_count.
  - exists (group_keys keys (rows df)). split; [|apply group_keys_sorted].
    induction Hall as [|k r ks rs [Hk _] _ IH]; [done|].
    by rewrite !fmap_cons, Hk, IH.
Qed.


(** ** Filters *)

Lemma filter_filter_same {A} (P : A → Prop) `{!∀ x, Decision (P x)} (l : list A) :
  filter P (filter P l) = filter P l.
Proof.
  induction l as [|x l IH]; [done|]. rewrite filter_cons.
  destruct (decide (P x)); [|done]. by rewrite filter_cons_True, IH.
Qed.

Lemma filter_valid_data_inv df out :
  filter_valid_data df = Ok out →
  "date" ∈ columns df ∧ "resign_date" ∈ columns df ∧
  out = {| columns := columns df; rows := filter (λ r, valid r) (rows df) |}.
Proof.
  unfold filter_valid_data.
  destruct (require ["date"; "resign_date"] df) as [[]|e] eqn:E; [|done].
  intros [= <-]. apply require_Ok in E.
  split_and!; [apply E; by repeat constructor..|done].
Qed.

(** X4.  [filter_valid_data] keeps its input's header and keeps the rows in
    their input order (the result is a sublist of the input), and it is
    idempotent: filtering a filtered frame changes nothing. *)
Theorem filter_valid_data_idempotent df out :
  filter_valid_data df = Ok out →
  columns out = columns df ∧ sublist (rows out) (rows df) ∧
  filter_valid_data out = Ok out.
Proof.
  intros (Hd & Hr & ->)%filter_valid_data_inv. cbn [columns rows]. split_and!.
  - done.
  - apply sublist_filter.
  - unfold filter_valid_data. rewrite require_all by (by repeat constructor).
    cbn [mbind result_bind columns rows]. by rewrite filter_filter_same.
Qed.

Lemma cell_eq_true a b : cell_eq a b = true ↔ ∃ x, a = Some x ∧ b = Some x.
Proof.
  destruct a as [x|], b as [y|]; simpl;
    try (split; [done|by intros (? & ? & ?)]).
  rewrite bool_decide_eq_true. split; [intros ->; by eauto|].
  by intros (? & [= ->] & [= ->]).
Qed.

Lemma filter_timesheets_by_date_inv date df out :
  filter_timesheets_by_date date df = Ok out →
  "date" ∈ columns df ∧
  out = {| columns := columns df;
           rows := filter (λ r, cell_eq (r !! "date") date) (rows df) |}.
Proof.
  unfold filter_timesheets_by_date.
  destruct (require ["date"] df) as [[]|e] eqn:E; [|done].
  intros [= <-]. apply require_Ok in E. split; [apply E; left|done].
Qed.

(** X5.  [filter_timesheets_by_date] keeps, in their input order, exactly
    the rows whose date is present and equal to the given one; with a
    missing date argument it keeps nothing; it is idempotent. *)
Theorem filter_timesheets_by_date_keeps date df out :
  filter_timesheets_by_date date df = Ok out →
  columns out = columns df ∧ sublist (rows out) (rows df) ∧
  (∀ r, r ∈ rows out ↔ r ∈ rows df ∧ ∃ d, r !! "date" = Some d ∧ date = Some d) ∧
  (date = None → rows out = []) ∧
  filter_timesheets_by_date date out = Ok out.
Proof.
  intros (Hd & ->)%filter_timesheets_by_date_inv. cbn [columns rows]. split_and!.
  - done.
  - apply sublist_filter.
  - intros r. rewrite list_elem_of_filter, Is_true_true, cell_eq_true. tauto.
  - intros ->. induction (rows df) as [|r rs IH]; [done|].
    rewrite filter_cons_False; [done|]. destruct (r !! "date"); exact id.
  - unfold filter_timesheets_by_date. rewrite require_all by (by repeat constructor).
    cbn [mbind result_bind columns rows]. by rewrite filter_filter_same.
Qed.

(** ** Selecting fields *)

Lemma lookup_select_None (fields : list string) (r : gmap string Qc) c :
  c ∉ fields → filter (λ kv : string * Qc, kv.1 ∈ fields) r !! c = None.
Proof.
  intros Hc. rewrite map_lookup_filter. destruct (r !! c) as [x|]; [|done].
  simpl. by rewrite option_guard_False.
Qed.

Lemma select_fields_inv fields df out :
  select_fields fields df = Ok out →
  fields ⊆ columns df ∧
  out = {| columns := fields;
           rows := (λ r : gmap string Qc, filter (λ kv, kv.1 ∈ fields) r) <$> rows df |}.
Proof.
  unfold select_fields. destruct (require fields df) as [[]|e] eqn:E; [|done].
  intros [= <-]. by apply require_Ok in E.
Qed.

(** X6.  [select_fields] returns a frame exactly when every requested field
    is a column.  The frame then has the requested fields as its header and
    as many rows as the input; each row keeps the cells of the requested
    fields and has no other cell. *)
Theorem select_fields_projects fields df :
  (is_Ok (select_fields fields df) ↔ fields ⊆ columns df) ∧
  ∀ out, select_fields fields df = Ok out →
    columns out = fields ∧ length (rows out) = length (rows df) ∧
    ∀ i r, rows df !! i = Some r →
      ∃ r', rows out !! i = Some r' ∧
        (∀ c, c ∈ fields → r' !! c = r !! c) ∧ (∀ c, c ∉ fields → r' !! c = None).
Proof.
  split.
  - split.
    + by intros [out [Hsub _]%select_fields_inv].
    + intros Hsub. unfold select_fields.
      rewrite (proj2 (require_Ok _ _) Hsub). by eexists.
  - intros out (Hsub & ->)%select_fields_inv. cbn [columns rows].
    split_and!; [done|by rewrite length_fmap|].
    intros i r Hi. eexists. rewrite list_lookup_fmap, Hi. split; [done|].
    split; intros c Hc; [by apply lookup_select|by apply lookup_select_None].
Qed.

Lemma select_select (fields1 fields2 : list string) (r : gmap string Qc) :
  fields2 ⊆ fields1 →
  filter (λ kv : string * Qc, kv.1 ∈ fields2)
    (filter (λ kv : string * Qc, kv.1 ∈ fields1) r)
  = filter (λ kv : string * Qc, kv.1 ∈ fields2) r.
Proof.
  intros Hsub. apply map_eq. intros c.
  destruct (decide (c ∈ fields2)) as [Hc|Hc].
  - rewrite !lookup_select by auto. done.
  - by rewrite !lookup_select_None.
Qed.

(** X7.  Selections compose: selecting [fields2] from the result of
    selecting [fields1] gives what selecting [fields2] from the input gives,
    whenever [fields2] is among [fields1]; in particular a selection applied
    to its own result changes nothing. *)
Theorem select_fields_compose fields1 fields2 df mid :
  fields2 ⊆ fields1 → select_fields fields1 df = Ok mid →
  select_fields fields2 mid = select_fields fields2 df ∧
  is_Ok (select_fields fields2 df) ∧
  select_fields fields1 mid = Ok mid.
Proof.
  intros Hsub (Hcols & ->)%select_fields_inv.
  assert (∀ fs, fs ⊆ fields1 →
    select_fields fs {| columns := fields1;
                        rows := (λ r : gmap string Qc, filter (λ kv, kv.1 ∈ fields1) r)
                                  <$> rows df |}
    = Ok {| columns := fs;
            rows := (λ r : gmap string Qc, filter (λ kv, kv.1 ∈ fs) r) <$> rows df |})
    as Hsel.
  { intros fs Hfs. unfold select_fields. rewrite (proj2 (require_Ok _ _)) by done.
    cbn [mbind result_bind rows]. do 2 f_equal. rewrite <-list_fmap_compose.
    apply list_fmap_ext. intros _ r _. by apply select_select. }
  assert (select_fields fields2 df
          = Ok {| columns := fields2;
                  rows := (λ r : gmap string Qc, filter (λ kv, kv.1 ∈ fields2) r)
                            <$> rows df |}) as Hdirect.
  { unfold select_fields. rewrite (proj2 (require_Ok _ _)); [done|]. by trans fields1. }
  split_and!.
  - by rewrite Hsel, Hdirect.
  - rewrite Hdirect. by eexists.
  - by rewrite Hsel.
Qed.


(** ** The Work-Hour Calculator applied twice, and its range *)

Lemma calculate_work_hour_inv df out :
  calculate_work_hour df = Ok out →
  "checkin" ∈ columns df ∧ "checkout" ∈ columns df ∧ out = with_work_hour df.
Proof.
  unfold calculate_work_hour.
  destruct (require ["checkin"; "checkout"] df) as [[]|e] eqn:E; [|done].
  intros [= <-]. apply require_Ok in E.
  split_and!; [apply E; by repeat constructor..|done].
Qed.

Lemma DataFrame_eq (a b : DataFrame) : columns a = columns b → rows a = rows b → a = b.
Proof. destruct a, b. simpl. by intros -> ->. Qed.

Lemma set_cell_set_cell c v (r : gmap string Qc) :
  set_cell c v (set_cell c v r) = set_cell c v r.
Proof.
  unfold set_cell. destruct v; [apply insert_insert_eq|apply delete_delete_eq].
Qed.

(** X8.  [calculate_work_hour] is idempotent: applied to its own result it
    returns it unchanged, the work_hour column being overwritten in place
    and not added a second time. *)
Theorem calculate_work_hour_idempotent df out :
  calculate_work_hour df = Ok out → calculate_work_hour out = Ok out.
Proof.
  intros (Hci & Hco & ->)%calculate_work_hour_inv.
  rewrite calculate_work_hour_Ok by (unfold with_work_hour; apply columns_assign; auto).
  f_equal. apply DataFrame_eq.
  - unfold with_work_hour at 1. cbn [assign columns].
    rewrite decide_True; [done|]. unfold with_work_hour. apply columns_assign. auto.
  - unfold with_work_hour, assign. cbn [rows]. rewrite <-list_fmap_compose.
    apply list_fmap_ext. intros _ r _. cbn.
    rewrite !lookup_set_cell_ne by done. apply set_cell_set_cell.
Qed.

Lemma worked_hours_within_day (ci co : Qc) :
  (0 ≤ ci)%Qc → (co ≤ num ns_per_day)%Qc →
  (worked_hours (Some ci) (Some co) ≤ num 24)%Qc.
Proof.
  intros Hci Hco. unfold worked_hours. case_decide as Hlt; [by apply num_nonneg|].
  revert Hci Hco. unfold Qcle, Qcdiv, Qcmult, Qcminus, Qcplus, Qcopp, Qcinv.
  cbn [this Q2Qc num Qc_of_Z]. rewrite !Qred_correct.
  change (Qred 0) with 0%Q. change (/ this ns_per_hour)%Q with (1 # 3600000000000)%Q.
  change (inject_Z ns_per_day) with (86400000000000 # 1)%Q.
  change (inject_Z 24) with (24 # 1)%Q. intros Hci Hco. lra.
Qed.

(** X9.  For an entry whose checkin is not negative and whose checkout is at
    most 24:00:00, [calculate_work_hour] stores between 0 and 24 hours. *)
Theorem calculate_work_hour_within_day df out r ci co :
  calculate_work_hour df = Ok out → r ∈ rows out →
  r !! "checkin" = Some ci → r !! "checkout" = Some co →
  (0 ≤ ci)%Qc → (co ≤ num ns_per_day)%Qc →
  ∃ h, r !! "work_hour" = Some h ∧ (0 ≤ h)%Qc ∧ (h ≤ num 24)%Qc.
Proof.
  intros (_ & _ & ->)%calculate_work_hour_inv (r0 & -> & _)%list_elem_of_fmap.
  rewrite !lookup_set_cell_ne by done. intros Hci Hco H0 H24.
  eexists. rewrite lookup_set_cell, Hci, Hco, work_hour_worked_hours.
  split_and!; [done|apply worked_hours_nonneg|by apply worked_hours_within_day].
Qed.


(** ** The hours aggregation *)

Lemma aggregate_columns keys col agg df :
  is_Ok (aggregate keys col agg df) → keys ⊆ columns df ∧ col ∈ columns df.
Proof.
  intros [out Hout]. rewrite aggregate_unfold in Hout. destruct keys as [|c keys]; [done|].
  destruct (require (c :: keys) df) as [[]|e] eqn:E1; [|done].
  cbn [mbind result_bind] in Hout.
  destruct (require [col] df) as [[]|e] eqn:E2; [|done].
  apply require_Ok in E1, E2. split; [done|]. apply E2. left.
Qed.

Lemma sum_work_hour_columns `{Calendar} df :
  is_Ok (sum_work_hour df) →
  "date" ∈ columns df ∧ "branch_id" ∈ columns df ∧ "work_hour" ∈ columns df.
Proof.
  intros [out Hout]. unfold sum_work_hour in Hout.
  destruct (require ["date"] df) as [[]|e] eqn:E; [|done].
  cbn [mbind result_bind] in Hout. apply require_Ok in E.
  destruct (aggregate _ _ _ (with_year_month df)) as [a|e] eqn:Ha; [|done].
  destruct (aggregate_columns _ _ _ _ (ex_intro _ a Ha)) as [Hk Hc].
  split_and!.
  - apply E. left.
  - assert ("branch_id" ∈ columns (with_year_month df)) as Hb
      by (apply Hk; by repeat constructor).
    apply columns_with_year_month in Hb as [?|[?|?]]; done.
  - apply columns_with_year_month in Hc as [?|[?|?]]; done.
Qed.






(** X10.  [sum_work_hour] returns one row for every (year, month, branch)
    of an entry that has a date and a branch, holding as total_work_hour the
    sum of the work_hour of the entries of that key, and no other row; the
    year and the month are those of the entry's date. *)
Theorem sum_work_hour_totals `{Calendar} df out :
  sum_work_hour df = Ok out →
  columns out = ["year"; "month"; "branch_id"; "total_work_hour"] ∧
  dated df = (λ r, set_cell "month" (month_of (r !! "date"))
                     (set_cell "year" (year_of (r !! "date")) r)) <$> rows df ∧
  (∀ k, (∃ r, r ∈ dated df ∧ key_of ["year"; "month"; "branch_id"] r = Some k) →
     ∃ o, group_rows ["year"; "month"; "branch_id"] k (rows out) = [o] ∧
          o !! "total_work_hour" =
            Some (sum_cells (cells "work_hour"
                    (group_rows ["year"; "month"; "branch_id"] k (dated df))))) ∧
  (∀ o, o ∈ rows out →
     ∃ k, key_of ["year"; "month"; "branch_id"] o = Some k ∧
          ∃ r, r ∈ dated df ∧ key_of ["year"; "month"; "branch_id"] r = Some k).
Proof.
  intros Hout.
  destruct (sum_work_hour_columns df) as (Hd & Hb & Hw); [by eexists|].
  rewrite sum_work_hour_Ok in Hout by done. injection Hout as <-. cbn [columns rows].
  split_and!; [done|apply dated_rows|..].
  - intros k Hk%elem_of_group_keys. eexists. split; [|apply out_row_col].
    apply (agg_rows_unique _ (λ k, out_row _ _ k _)); [apply group_keys_NoDup| |done].
    intros k' Hk'%group_keys_length. apply out_row_key; [compute_done..|done].
  - intros o (k & -> & Hk)%list_elem_of_fmap. exists k.
    split; [|by apply elem_of_group_keys].
    apply out_row_key; [compute_done..|]. by eapply group_keys_length.
Qed.







(** ** The salary aggregation *)

Lemma max_cells_set_ext cs cs' :
  (∀ c, c ∈ cs ↔ c ∈ cs') → max_cells cs = max_cells cs'.
Proof.
  intros Hext.
  destruct (max_cells cs) as [m|] eqn:E, (max_cells cs') as [m'|] eqn:E'; [| | |done].
  - apply max_cells_Some in E as [Hin Hmax], E' as [Hin' Hmax'].
    f_equal. apply Qcle_antisym; [apply Hmax', Hext, Hin|apply Hmax, Hext, Hin'].
  - apply max_cells_Some in E as [Hin _]. by apply Hext, (max_cells_None _ E') in Hin.
  - apply max_cells_Some in E' as [Hin _]. by apply Hext, (max_cells_None _ E) in Hin.
Qed.

Lemma require_columns cs df df' : columns df = columns df' → require cs df = require cs df'.
Proof. unfold require. by intros ->. Qed.

(** An aggregate whose reduction depends only on the set of the cells of a
    group depends only on the set of the rows. *)
Lemma aggregate_set_ext keys col agg df df' :
  (∀ cs cs' : list cell, (∀ c, c ∈ cs ↔ c ∈ cs') → agg cs = agg cs') →
  columns df = columns df' → (∀ r, r ∈ rows df ↔ r ∈ rows df') →
  aggregate keys col agg df = aggregate keys col agg df'.
Proof.
  intros Hagg Hcols Hrows. rewrite !aggregate_unfold. destruct keys as [|c keys]; [done|].
  rewrite !(require_columns _ df df') by done.
  destruct (require (c :: keys) df') as [[]|e]; [|done]. cbn [mbind result_bind].
  destruct (require [col] df') as [[]|e]; [|done]. cbn [mbind result_bind].
  f_equal. unfold agg_frame. f_equal.
  assert (group_keys (c :: keys) (rows df) = group_keys (c :: keys) (rows df')) as ->.
  { apply sorted_keys_ext. intros k. rewrite !list_elem_of_omap.
    split; intros (r & Hr & Hk); exists r; (split; [by apply Hrows|done]). }
  apply list_fmap_ext. intros _ k _. unfold agg_row. f_equal. apply Hagg.
  intros x. unfold group_rows. rewrite !list_elem_of_fmap.
  split; intros (r & -> & [Hk Hr]%list_elem_of_filter); exists r;
    (split; [done|]); apply list_elem_of_filter; (split; [done|by apply Hrows]).
Qed.

(** X13.  The salary aggregation depends only on which entries there are,
    not on how often or in which order each occurs: a repeated entry does
    not raise a branch's salary total. *)
Theorem salary_data_ignores_repeats `{Calendar} df df' :
  columns df = columns df' → (∀ r, r ∈ rows df ↔ r ∈ rows df') →
  salary_data df = salary_data df'.
Proof.
  intros Hcols Hrows. unfold salary_data. f_equal. unfold get_salary_per_employee.
  rewrite (require_columns _ df df') by done.
  destruct (require ["date"] df') as [[]|e]; [|done]. cbn [mbind result_bind].
  f_equal. apply aggregate_set_ext.
  - apply max_cells_set_ext.
  - unfold with_year_month, assign. cbn [columns]. by rewrite Hcols.
  - intros r. change (r ∈ dated df ↔ r ∈ dated df'). rewrite !dated_rows, !list_elem_of_fmap.
    split; intros (r0 & -> & Hr0); exists r0; (split; [done|by apply Hrows]).
Qed.


(** ** The join of timesheets and employees *)

Lemma filter_all {A} (P : A → Prop) `{∀ x, Decision (P x)} (l : list A) :
  (∀ x, x ∈ l → P x) → filter P l = l.
Proof.
  induction l as [|x l IH]; intros Hl; [done|].
  rewrite filter_cons_True by (apply Hl; left).
  f_equal. apply IH. intros y Hy. apply Hl. by right.
Qed.

Lemma filter_none {A} (P : A → Prop) `{∀ x, Decision (P x)} (l : list A) :
  (∀ x, x ∈ l → ¬ P x) → filter P l = [].
Proof.
  induction l as [|x l IH]; intros Hl; [done|].
  rewrite filter_cons_False by (apply Hl; left).
  apply IH. intros y Hy. apply Hl. by right.
Qed.

Lemma merge_on_columns left right a b :
  is_Ok (merge_on left right a b) ↔ a ∈ columns left ∧ b ∈ columns right.
Proof.
  unfold merge_on. split.
  - intros [out Hout].
    destruct (require [a] left) as [[]|e] eqn:E1; [|done].
    destruct (require [b] right) as [[]|e] eqn:E2; [|done].
    apply require_Ok in E1, E2. split; [apply E1|apply E2]; left.
  - intros [Ha Hb]. rewrite !require_all by (by repeat constructor). by eexists.
Qed.

(** With disjoint headers no column is renamed. *)
Lemma merge_on_disjoint left right a b :
  (∀ c, c ∈ columns left → c ∉ columns right) →
  a ∈ columns left → b ∈ columns right →
  merge_on left right a b =
    Ok {| columns := columns left ++ columns right;
          rows := l ← rows left; r ← matches a b right l; [l ∪ r] |}.
Proof.
  intros Hdis Ha Hb. unfold merge_on.
  rewrite !require_all by (by repeat constructor). cbn [mbind result_bind].
  assert (overlap_on a b left right = []) as ->.
  { apply filter_none. intros c Hc [Hr _]. by apply (Hdis c). }
  f_equal. f_equal.
  rewrite filter_all.
  - f_equal; (etrans; [|apply list_fmap_id]); apply list_fmap_ext; intros _ c _;
      rewrite decide_False; [done|apply not_elem_of_nil|done|apply not_elem_of_nil].
  - intros c Hc [-> ->]. by apply (Hdis b).
Qed.

Lemma length_bind_singleton {A B} (f : A → list A) (g : A → A → B) (l : list A) :
  length (x ← l; y ← f x; [g x y]) = sum_list_with (λ x, length (f x)) l.
Proof.
  induction l as [|x l IH]; [done|]. rewrite bind_cons, length_app, IH. cbn. f_equal.
  induction (f x) as [|y ys IHy]; [done|]. rewrite bind_cons. cbn. by rewrite IHy.
Qed.

(** X14.  The join of timesheets and employees is an inner join on the two
    key columns.  For well-formed frames with disjoint headers it raises
    exactly when a key column is missing; the header of the result is the
    left header followed by the right one; every row of the result carries
    the cells of a left and of a right row with equal keys; every such pair
    gives a row; and a left row occurs once per right row it matches, so
    that left rows without a match are dropped. *)
Theorem merge_on_inner_join left right a b :
  well_formed left → well_formed right →
  (∀ c, c ∈ columns left → c ∉ columns right) →
  (is_Ok (merge_on left right a b) ↔ a ∈ columns left ∧ b ∈ columns right) ∧
  ∀ out, merge_on left right a b = Ok out →
    columns out = columns left ++ columns right ∧
    (∀ o, o ∈ rows out →
       ∃ l r, l ∈ rows left ∧ r ∈ rows right ∧ l !! a = r !! b ∧ o !! a = o !! b ∧
         (∀ c, c ∈ columns left → o !! c = l !! c) ∧
         (∀ c, c ∈ columns right → o !! c = r !! c)) ∧
    (∀ l r, l ∈ rows left → r ∈ rows right → l !! a = r !! b → l ∪ r ∈ rows out) ∧
    length (rows out) = sum_list_with (λ l, length (matches a b right l)) (rows left) ∧
    well_formed out.
Proof.
  intros Hwl Hwr Hdis. split; [apply merge_on_columns|]. intros out Hout.
  destruct (proj1 (merge_on_columns left right a b)) as [Ha Hb]; [by eexists|].
  rewrite merge_on_disjoint in Hout by done. injection Hout as <-. cbn [columns rows].
  assert (∀ (l r : gmap string Qc) c, l ∈ rows left → r ∈ rows right →
            (c ∈ columns left → (l ∪ r) !! c = l !! c) ∧
            (c ∈ columns right → (l ∪ r) !! c = r !! c)) as Hcell.
  { intros l r c Hl Hr. split; intros Hc.
    - destruct (l !! c) as [x|] eqn:El; [by apply lookup_union_Some_l|].
      apply lookup_union_None_2; [done|].
      destruct (r !! c) as [y|] eqn:Er; [|done].
      destruct (Hdis c Hc). eapply Hwr; [done|]. by rewrite Er.
    - apply lookup_union_r. destruct (l !! c) as [x|] eqn:El; [|done].
      destruct (Hdis c); [|done]. eapply Hwl; [done|]. by rewrite El. }
  split_and!.
  - done.
  - intros o (l & (r & ->%list_elem_of_singleton & [Hm Hr]%list_elem_of_filter)%list_elem_of_bind
                & Hl)%list_elem_of_bind.
    exists l, r. split_and!; [done..| |intros; by apply Hcell|intros; by apply Hcell].
    rewrite (proj1 (Hcell l r a Hl Hr) Ha), (proj2 (Hcell l r b Hl Hr) Hb). done.
  - intros l r Hl Hr Hm. apply list_elem_of_bind. exists l. split; [|done].
    apply list_elem_of_bind. exists r. split; [left|]. by apply list_elem_of_filter.
  - apply length_bind_singleton.
  - intros o c
      (l & (r & ->%list_elem_of_singleton & [Hm Hr]%list_elem_of_filter)%list_elem_of_bind
         & Hl)%list_elem_of_bind [x Hx].
    cbn [columns]. apply elem_of_app.
    apply lookup_union_Some_raw in Hx as [Hx|[_ Hx]].
    + left. eapply Hwl; [done|]. by rewrite Hx.
    + right. eapply Hwr; [done|]. by rewrite Hx.
Qed.

(** ** The two cleaning steps *)

Lemma valid_select (fields : list string) (r : gmap string Qc) :
  "date" ∈ fields → "resign_date" ∈ fields →
  valid (filter (λ kv : string * Qc, kv.1 ∈ fields) r) = valid r.
Proof. intros Hd Hr. unfold valid. by rewrite !lookup_select. Qed.

Lemma filter_fmap_comm {A} (f : A → A) (P : A → Prop) `{∀ x, Decision (P x)} (l : list A) :
  (∀ x, P (f x) ↔ P x) → filter P (f <$> l) = f <$> filter P l.
Proof.
  intros Hf. induction l as [|x l IH]; [done|].
  rewrite fmap_cons, !filter_cons, IH.
  destruct (decide (P (f x))) as [Hp|Hp], (decide (P x)) as [Hq|Hq]; try done.
  - destruct Hq. by apply Hf.
  - destruct Hp. by apply Hf.
Qed.

(** X16.  The two cleaning steps of the script commute: selecting fields
    that include date and resign_date and then filtering the valid rows
    returns the same frame as filtering first, whenever either order
    returns a frame. *)
Theorem filter_valid_data_select_fields_commute fields df out :
  "date" ∈ fields → "resign_date" ∈ fields →
  (filter_valid_data df ≫= select_fields fields) = Ok out ↔
  (select_fields fields df ≫= filter_valid_data) = Ok out.
Proof.
  intros Hd Hr.
  assert (∀ rs : list (gmap string Qc),
            filter (λ r, valid r) ((λ r : gmap string Qc, filter (λ kv, kv.1 ∈ fields) r) <$> rs)
            = (λ r : gmap string Qc, filter (λ kv, kv.1 ∈ fields) r) <$> filter (λ r, valid r) rs)
    as Hcomm.
  { intros rs. apply filter_fmap_comm. intros r. by rewrite valid_select. }
  split.
  - destruct (filter_valid_data df) as [mid|e] eqn:E; [|done]. cbn [mbind result_bind].
    apply filter_valid_data_inv in E as (_ & _ & ->).
    intros (Hsub & ->)%select_fields_inv. cbn [columns rows] in *.
    unfold select_fields. rewrite (proj2 (require_Ok _ _) Hsub). cbn [mbind result_bind].
    unfold filter_valid_data. rewrite require_all by (by repeat constructor).
    cbn [mbind result_bind columns rows]. by rewrite Hcomm.
  - destruct (select_fields fields df) as [mid|e] eqn:E; [|done]. cbn [mbind result_bind].
    apply select_fields_inv in E as (Hsub & ->).
    intros (_ & _ & ->)%filter_valid_data_inv. cbn [columns rows] in *.
    unfold filter_valid_data. rewrite (proj2 (require_Ok _ _))
      by (intros c Hc; apply Hsub; rewrite !elem_of_cons, elem_of_nil in Hc;
          by destruct Hc as [->|[->|[]]]).
    cbn [mbind result_bind]. unfold select_fields.
    rewrite (proj2 (require_Ok _ _)) by done.
    cbn [mbind result_bind columns rows]. by rewrite Hcomm.
Qed.


(** ** The final frame *)

Lemma salary_per_hour_data_columns `{Calendar} df :
  is_Ok (salary_per_hour_data df) →
  "date" ∈ columns df ∧ "branch_id" ∈ columns df ∧ "employee_id" ∈ columns df ∧
  "salary" ∈ columns df ∧ "checkin" ∈ columns df ∧ "checkout" ∈ columns df.
Proof.
  intros [out Hout]. unfold salary_per_hour_data in Hout.
  destruct (joined_work_hour_salary_data df) as [j|e] eqn:Ej; [clear Hout|done].
  unfold joined_work_hour_salary_data in Ej.
  destruct (work_hour_data df) as [w|e] eqn:Ew; [|done]. cbn [mbind result_bind] in Ej.
  destruct (salary_data df) as [s|e] eqn:Es; [clear Ej|done].
  unfold work_hour_data in Ew.
  destruct (calculate_work_hour df) as [mid|e] eqn:Ec; [|done].
  apply calculate_work_hour_inv in Ec as (Hci & Hco & ->). cbn [mbind result_bind] in Ew.
  destruct (sum_work_hour_columns (with_work_hour df)) as (Hd & Hb & _); [by eexists|].
  unfold with_work_hour in Hd, Hb. apply columns_assign in Hd as [?|Hd]; [done|].
  apply columns_assign in Hb as [?|Hb]; [done|].
  unfold salary_data in Es.
  destruct (get_salary_per_employee df) as [g|e] eqn:Eg; [clear Es|done].
  unfold get_salary_per_employee in Eg.
  destruct (require ["date"] df) as [[]|e]; [|done]. cbn [mbind result_bind] in Eg.
  destruct (aggregate _ _ _ (with_year_month df)) as [a|e] eqn:Ea; [|done].
  destruct (aggregate_columns _ _ _ _ (ex_intro _ a Ea)) as [Hk Hs].
  assert ("employee_id" ∈ columns (with_year_month df)) as He
    by (apply Hk; by repeat constructor).
  apply columns_with_year_month in He as [?|[?|He]]; [done..|].
  apply columns_with_year_month in Hs as [?|[?|Hs]]; done.
Qed.

Lemma key_of_key_cells keys (r r' : gmap string Qc) :
  key_cells keys r = key_cells keys r' → key_of keys r = key_of keys r'.
Proof.
  intros Heq. destruct (key_of keys r) as [k|] eqn:E.
  - symmetry. apply key_cells_Some. rewrite <-Heq. by apply key_cells_Some.
  - destruct (key_of keys r') as [k|] eqn:E'; [|done].
    apply key_cells_Some in E'. rewrite <-Heq in E'. apply key_cells_Some in E'. congruence.
Qed.

(** The hours stage groups the entries by the same keys as the entries
    themselves have: the work_hour column is no key. *)
Lemma hours_keys_dated `{Calendar} df k :
  k ∈ hours_keys df ↔
  ∃ r, r ∈ dated df ∧ key_of ["year"; "month"; "branch_id"] r = Some k.
Proof.
  unfold hours_keys. rewrite elem_of_group_keys, !dated_rows.
  unfold with_work_hour, assign. cbn [rows].
  assert (∀ r : gmap string Qc,
    key_of ["year"; "month"; "branch_id"]
      (set_cell "month"
         (month_of (set_cell "work_hour" (work_hour (r !! "checkin") (r !! "checkout")) r
                    !! "date"))
         (set_cell "year"
            (year_of (set_cell "work_hour" (work_hour (r !! "checkin") (r !! "checkout")) r
                      !! "date"))
            (set_cell "work_hour" (work_hour (r !! "checkin") (r !! "checkout")) r)))
    = key_of ["year"; "month"; "branch_id"]
        (set_cell "month" (month_of (r !! "date"))
           (set_cell "year" (year_of (r !! "date")) r))) as Hkey.
  { intros r. apply key_of_key_cells, key_cells_ext. intros c Hc.
    rewrite (lookup_set_cell_ne "work_hour" "date") by done.
    rewrite !elem_of_cons, elem_of_nil in Hc. destruct Hc as [->|[->|[->|[]]]].
    - by rewrite !(lookup_set_cell_ne "month" "year"), !lookup_set_cell.
    - by rewrite !lookup_set_cell.
    - by rewrite !(lookup_set_cell_ne _ "branch_id"). }
  split.
  - intros (r' & (r1 & -> & (r & -> & Hr)%list_elem_of_fmap)%list_elem_of_fmap & Hk).
    rewrite Hkey in Hk. eexists. split; [|done]. apply list_elem_of_fmap. by exists r.
  - intros (r' & (r & -> & Hr)%list_elem_of_fmap & Hk). rewrite <-Hkey in Hk.
    eexists. split; [|done]. apply list_elem_of_fmap. eexists. split; [done|].
    apply list_elem_of_fmap. by exists r.
Qed.

Lemma key_of_snoc keys c (r : gmap string Qc) k :
  key_of (keys ++ [c]) r = Some k ↔
  ∃ k' x, k = k' ++ [x] ∧ key_of keys r = Some k' ∧ r !! c = Some x.
Proof.
  rewrite key_of_Some. split.
  - intros (k' & kx & Hk' & Hx & ->)%Forall2_app_inv_l.
    inversion Hx as [|? x ? ? Hc Hnil]; subst. inversion Hnil; subst.
    exists k', x. split; [done|]. split; [by apply key_of_Some|done].
  - intros (k' & x & -> & Hk'%key_of_Some & Hx).
    apply Forall2_app; [done|]. by repeat constructor.
Qed.

(** The salary stages keep the keys of the entries that name an employee. *)
Lemma elem_of_salary_keys `{Calendar} df k :
  k ∈ salary_keys df ↔
  ∃ r, r ∈ dated df ∧ key_of ["year"; "month"; "branch_id"] r = Some k ∧
       is_Some (r !! "employee_id").
Proof.
  unfold salary_keys. rewrite elem_of_sorted_keys, list_elem_of_fmap.
  change ["year"; "month"; "branch_id"; "employee_id"]
    with (["year"; "month"; "branch_id"] ++ ["employee_id"]).
  split.
  - intros (k4 & -> & (r & Hr & (k' & x & -> & Hk' & Hx)%key_of_snoc)%elem_of_group_keys).
    exists r. split; [done|]. split; [|by rewrite Hx].
    rewrite take_app_length'; [done|]. by apply key_of_length in Hk'.
  - intros (r & Hr & Hk & [x Hx]). exists (k ++ [x]). split.
    + rewrite take_app_length'; [done|]. by apply key_of_length in Hk.
    + apply elem_of_group_keys. exists r. split; [done|].
      apply key_of_snoc. by exists k, x.
Qed.

(** X15.  The final stage returns a frame exactly when the entries have the
    six columns it reads.  The frame then has the header year, month,
    branch_id, salary_per_hour; its rows are in strictly ascending order of
    their (year, month, branch_id) key; and it has a row for a key exactly
    when some entry of that year, month and branch names an employee. *)
Theorem salary_per_hour_data_keys `{Calendar} df :
  (is_Ok (salary_per_hour_data df) ↔
     "date" ∈ columns df ∧ "branch_id" ∈ columns df ∧ "employee_id" ∈ columns df ∧
     "salary" ∈ columns df ∧ "checkin" ∈ columns df ∧ "checkout" ∈ columns df) ∧
  ∀ out, salary_per_hour_data df = Ok out →
    columns out = ["year"; "month"; "branch_id"; "salary_per_hour"] ∧
    (∃ ks, Forall2 (λ o k, key_of ["year"; "month"; "branch_id"] o = Some k) (rows out) ks ∧
           StronglySorted key_lt ks) ∧
    ∀ k, (∃ o, o ∈ rows out ∧ key_of ["year"; "month"; "branch_id"] o = Some k) ↔
         (∃ r, r ∈ dated df ∧ key_of ["year"; "month"; "branch_id"] r = Some k ∧
               is_Some (r !! "employee_id")).
Proof.
  split.
  { split; [apply salary_per_hour_data_columns|].
    intros (? & ? & ? & ? & ? & ?). rewrite salary_per_hour_data_Ok by done. by eexists. }
  intros out Hout.
  destruct (salary_per_hour_data_columns df) as (? & ? & ? & ? & ? & ?); [by eexists|].
  rewrite salary_per_hour_data_Ok in Hout by done. injection Hout as <-.
  cbn [columns rows]. split_and!; [done|..].
  - exists (joined_keys df). split.
    + apply Forall2_fmap_l, Forall_Forall2_diag, Forall_forall. apply final_row_key.
    + apply StronglySorted_filter, group_keys_sorted.
  - intros k. rewrite <-elem_of_salary_keys. split.
    + intros (o & (k' & -> & Hk')%list_elem_of_fmap & Hk).
      rewrite final_row_key in Hk by done. injection Hk as ->.
      by apply elem_of_joined_keys in Hk' as [_ ?].
    + intros Hk. assert (k ∈ joined_keys df) as Hj.
      { apply elem_of_joined_keys. split; [|done]. apply hours_keys_dated.
        apply elem_of_salary_keys in Hk as (r & ? & ? & _). by exists r. }
      exists (final_row df k). split; [|by apply final_row_key].
      apply list_elem_of_fmap. by exists k.
Qed.


(** ** The stages of the script *)

Lemma remove_duplicate_data_empty keys ord asc cols :
  keys ≠ [] → keys ⊆ cols → ord ∈ cols →
  remove_duplicate_data keys ord asc {| columns := cols; rows := [] |}
  = Ok {| columns := cols; rows := [] |}.
Proof. intros Hne Hsub Hord. by rewrite remove_duplicate_data_unfold. Qed.

Lemma timesheet_data_columns t y T : timesheet_data t y = Ok T → columns T = columns t.
Proof.
  unfold timesheet_data.
  destruct (filter_timesheets_by_date y t) as [f|e] eqn:E; [|done]. cbn [mbind result_bind].
  apply filter_timesheets_by_date_inv in E as (_ & ->).
  by intros [-> _]%remove_duplicate_data_inv.
Qed.

Lemma employee_timesheet_data_Ok J :
  ["timesheet_id"; "employee_id"; "branch_id"; "salary"; "join_date";
   "resign_date"; "date"; "checkin"; "checkout"] ⊆ columns J →
  ∃ D, employee_timesheet_data J = Ok D ∧
    columns D = ["timesheet_id"; "employee_id"; "branch_id"; "salary"; "join_date";
                 "resign_date"; "date"; "checkin"; "checkout"] ∧
    (rows J = [] → rows D = []).
Proof.
  intros Hsub. unfold employee_timesheet_data, filter_valid_data.
  rewrite (proj2 (require_Ok _ _))
    by (intros c Hc; apply Hsub; rewrite !elem_of_cons, elem_of_nil in Hc;
        rewrite !elem_of_cons; tauto).
  cbn [mbind result_bind]. unfold select_fields.
  rewrite (proj2 (require_Ok _ _)) by done. cbn [mbind result_bind].
  eexists. split; [done|]. cbn [columns rows]. split; [done|]. by intros ->.
Qed.

(** The frames the script passes from stage to stage, once the two
    deduplications have returned. *)
Lemma script_frames_stages `{Calendar} e t y E T :
  employee_fields ⊆ columns e → timesheet_fields ⊆ columns t →
  (∀ c, c ∈ columns t → c ∉ columns e) →
  employee_data e = Ok E → timesheet_data t y = Ok T →
  ∃ D, script_frames e t y = Ok {| columns := final_fields;
                                   rows := final_row D <$> joined_keys D |} ∧
       (rows T = [] → rows D = []).
Proof.
  intros He Ht Hdis HE HT. unfold script_frames. rewrite HE, HT. cbn [mbind result_bind].
  apply timesheet_data_columns in HT.
  unfold employee_data in HE. apply remove_duplicate_data_inv in HE as [HE _].
  unfold joined_employee_timesheet_data. rewrite merge_on_disjoint; cycle 1.
  { rewrite HT, HE. apply Hdis. }
  { rewrite HT. apply Ht. unfold timesheet_fields. by repeat constructor. }
  { rewrite HE. apply He. unfold employee_fields. by repeat constructor. }
  cbn [mbind result_bind].
  edestruct employee_timesheet_data_Ok as (D & -> & HD & Hrows).
  { cbn [columns]. rewrite HT, HE. intros c Hc. apply elem_of_app.
    unfold employee_fields, timesheet_fields in *.
    rewrite !elem_of_cons, elem_of_nil in Hc.
    destruct Hc as [->|[->|[->|[->|[->|[->|[->|[->|[->|[]]]]]]]]]];
      first [left; apply Ht; by repeat constructor|right; apply He; by repeat constructor]. }
  cbn [mbind result_bind]. exists D. split.
  - apply salary_per_hour_data_Ok; rewrite HD; by repeat constructor.
  - intros HT0. apply Hrows. cbn [rows]. by rewrite HT0.
Qed.

(** X17.  With the headers of the two files, which share no column name,
    the script's pipeline raises only in one of its two deduplications: it
    returns a frame exactly when the employee and the timesheet stage do, and
    the frame then has the header year, month, branch_id, salary_per_hour. *)
Theorem script_frames_returns `{Calendar} e t y :
  employee_fields ⊆ columns e → timesheet_fields ⊆ columns t →
  (∀ c, c ∈ columns t → c ∉ columns e) →
  (is_Ok (script_frames e t y) ↔ is_Ok (employee_data e) ∧ is_Ok (timesheet_data t y)) ∧
  ∀ out, script_frames e t y = Ok out → columns out = final_fields.
Proof.
  intros He Ht Hdis.
  assert (is_Ok (script_frames e t y) →
          is_Ok (employee_data e) ∧ is_Ok (timesheet_data t y)) as Hinv.
  { intros [out Hout]. unfold script_frames in Hout.
    destruct (employee_data e) as [E|err]; [|done]. cbn [mbind result_bind] in Hout.
    destruct (timesheet_data t y) as [T|err]; [|done]. split; by eexists. }
  split.
  - split; [done|]. intros [[E HE] [T HT]].
    destruct (script_frames_stages e t y E T) as (D & -> & _); [done..|]. by eexists.
  - intros out Hout. destruct Hinv as [[E HE] [T HT]]; [by eexists|].
    destruct (script_frames_stages e t y E T) as (D & HD & _); [done..|].
    rewrite HD in Hout. by injection Hout as <-.
Qed.

(** ** The insert statement *)

Lemma py_int_num z : py_int (Some (num z)) = Ok z.
Proof. unfold py_int. f_equal. apply Z.quot_1_r. Qed.

Lemma data_value_inv `{FloatFormat} records (r : gmap string Qc) v :
  data_value records r = Ok v →
  final_fields ⊆ columns records ∧
  ∃ y m b, r !! "year" = Some y ∧ r !! "month" = Some m ∧ r !! "branch_id" = Some b ∧
    v = value_tuple (truncate y) (truncate m) (truncate b) (r !! "salary_per_hour").
Proof.
  unfold data_value, row_get.
  destruct (decide ("year" ∈ columns records)); [|done]. cbn [mbind result_bind].
  destruct (r !! "year") as [y|]; [|done]. cbn [py_int mbind result_bind].
  destruct (decide ("month" ∈ columns records)); [|done]. cbn [mbind result_bind].
  destruct (r !! "month") as [m|]; [|done]. cbn [py_int mbind result_bind].
  destruct (decide ("branch_id" ∈ columns records)); [|done]. cbn [mbind result_bind].
  destruct (r !! "branch_id") as [b|]; [|done]. cbn [py_int mbind result_bind].
  destruct (decide ("salary_per_hour" ∈ columns records)); [|done]. cbn [mbind result_bind].
  intros [= <-]. split.
  - intros c Hc. unfold final_fields in Hc. rewrite !elem_of_cons, elem_of_nil in Hc.
    by destruct Hc as [->|[->|[->|[->|[]]]]].
  - by exists y, m, b.
Qed.

Lemma data_value_Ok `{FloatFormat} records (r : gmap string Qc) y m b :
  final_fields ⊆ columns records →
  r !! "year" = Some y → r !! "month" = Some m → r !! "branch_id" = Some b →
  data_value records r
  = Ok (value_tuple (truncate y) (truncate m) (truncate b) (r !! "salary_per_hour")).
Proof.
  intros Hsub Hy Hm Hb. unfold data_value, row_get, final_fields in *.
  rewrite !decide_True by (apply Hsub; by repeat constructor).
  by rewrite Hy, Hm, Hb.
Qed.

Lemma data_values_inv `{FloatFormat} records rs vs :
  data_values records rs = Ok vs → Forall2 (λ r v, data_value records r = Ok v) rs vs.
Proof.
  revert vs. induction rs as [|r rs IH]; intros vs; cbn [data_values].
  - intros [= <-]. constructor.
  - destruct (data_value records r) as [v|e] eqn:E; [|done]. cbn [mbind result_bind].
    destruct (data_values records rs) as [vs'|e]; [|done]. cbn [mbind result_bind].
    intros [= <-]. constructor; [done|]. by apply IH.
Qed.

Lemma data_values_Ok `{FloatFormat} records rs vs :
  Forall2 (λ r v, data_value records r = Ok v) rs vs → data_values records rs = Ok vs.
Proof.
  induction 1 as [|r v rs vs Hv _ IH]; cbn [data_values]; [done|].
  by rewrite Hv, IH.
Qed.

(** X18.  [generate_increment_data_query] returns a statement exactly when
    every row it reads has a year, a month and a branch_id, the frame then
    having the four columns; a missing salary_per_hour does not make it
    raise.  The statement is the insert prefix followed by one value tuple
    per row, in row order, separated by commas, year, month and branch
    truncated to integers.  For a frame without rows it is the bare prefix,
    with no value tuple. *)
Theorem generate_increment_data_query_returns `{FloatFormat} records :
  (is_Ok (generate_increment_data_query records) ↔
     ∀ r, r ∈ rows records →
       final_fields ⊆ columns records ∧
       is_Some (r !! "year") ∧ is_Some (r !! "month") ∧ is_Some (r !! "branch_id")) ∧
  (∀ q, generate_increment_data_query records = Ok q →
     ∃ vs, q = insert_prefix +:+ String.concat ", " vs ∧
       Forall2 (λ (r : gmap string Qc) v, ∃ y m b,
                  r !! "year" = Some y ∧ r !! "month" = Some m ∧
                  r !! "branch_id" = Some b ∧
                  v = value_tuple (truncate y) (truncate m) (truncate b)
                        (r !! "salary_per_hour"))
               (rows records) vs) ∧
  (rows records = [] → generate_increment_data_query records = Ok insert_prefix).
Proof.
  unfold generate_increment_data_query. split_and!.
  - split.
    + intros [q Hq]. destruct (data_values records (rows records)) as [vs|e] eqn:E; [|done].
      apply data_values_inv in E. intros r Hr.
      apply list_elem_of_lookup in Hr as [i Hi].
      destruct (Forall2_lookup_l _ _ _ _ _ E Hi) as (v & _ & Hv).
      apply data_value_inv in Hv as (Hsub & y & m & b & -> & -> & -> & _).
      split_and!; [done|by eexists..].
    + intros Hall.
      assert (∃ vs, Forall2 (λ r v, data_value records r = Ok v) (rows records) vs)
        as [vs Hvs].
      { apply Forall_exists_Forall2, Forall_forall. intros r Hr.
        destruct (Hall r Hr) as (Hsub & [y Hy] & [m Hm] & [b Hb]).
        eexists. by apply (data_value_Ok records r y m b). }
      rewrite (data_values_Ok _ _ _ Hvs). by eexists.
  - intros q Hq. destruct (data_values records (rows records)) as [vs|e] eqn:E; [|done].
    injection Hq as <-. exists vs. split; [done|].
    apply data_values_inv in E. eapply Forall2_impl; [done|].
    intros r v Hv. apply data_value_inv in Hv as (_ & y & m & b & ? & ? & ? & ?).
    by exists y, m, b.
  - by intros ->.
Qed.

Lemma dated_year_month `{Calendar} df (r : gmap string Qc) y m :
  r ∈ dated df → r !! "year" = Some y → r !! "month" = Some m →
  ∃ zy zm, y = num zy ∧ m = num zm.
Proof.
  rewrite dated_rows. intros (r0 & -> & _)%list_elem_of_fmap.
  rewrite (lookup_set_cell_ne "month" "year"), !lookup_set_cell by done.
  unfold year_of, month_of. destruct (r0 !! "date") as [d|]; [|done].
  intros [= <-] [= <-]. by eexists _, _.
Qed.

(** X19.  The statement for the frame the final stage returns: it is always
    generated, with one value tuple per row; the year and the month of a row
    are integers and are written exactly, the branch is truncated, and the
    salary_per_hour written is a number. *)
Theorem salary_per_hour_data_query `{Calendar} `{FloatFormat} df out :
  salary_per_hour_data df = Ok out →
  ∃ vs, generate_increment_data_query out = Ok (insert_prefix +:+ String.concat ", " vs) ∧
    Forall2 (λ (o : gmap string Qc) v, ∃ y m b q,
               o !! "year" = Some (num y) ∧ o !! "month" = Some (num m) ∧
               o !! "branch_id" = Some b ∧ o !! "salary_per_hour" = Some q ∧
               v = value_tuple y m (truncate b) (Some q))
            (rows out) vs.
Proof.
  intros Hout.
  destruct (salary_per_hour_data_columns df) as (? & ? & ? & ? & ? & ?); [by eexists|].
  rewrite salary_per_hour_data_Ok in Hout by done. injection Hout as <-.
  assert (∀ k, k ∈ joined_keys df → ∃ y m b q,
            final_row df k !! "year" = Some (num y) ∧
            final_row df k !! "month" = Some (num m) ∧
            final_row df k !! "branch_id" = Some b ∧
            final_row df k !! "salary_per_hour" = Some q) as Hrow.
  { intros k Hk. pose proof (final_row_key df k Hk) as Hkey.
    apply elem_of_joined_keys in Hk as [_ (r & Hr & Hrk & _)%elem_of_salary_keys].
    apply key_of_Some in Hkey, Hrk.
    inversion Hkey as [|? y ? k1 Hy Hk1]; subst. inversion Hk1 as [|? m ? k2 Hm Hk2]; subst.
    inversion Hk2 as [|? b ? k3 Hb Hk3]; subst. inversion Hk3; subst.
    inversion Hrk as [|? ? ? ? Hy' Hr1]; subst. inversion Hr1 as [|? ? ? ? Hm' _]; subst.
    destruct (dated_year_month df r y m Hr Hy' Hm') as (zy & zm & -> & ->).
    rewrite final_row_rate.
    destruct (salary_per_hour_cases (total_salary df [num zy; num zm; b])
                (total_hours df [num zy; num zm; b])) as [[_ ->]|(_ & _ & ->)];
      by eexists zy, zm, b, _. }
  unfold generate_increment_data_query. cbn [rows].
  assert (Forall2 (λ r v, data_value
            {| columns := ["year"; "month"; "branch_id"; "salary_per_hour"];
               rows := final_row df <$> joined_keys df |} r = Ok v)
            (final_row df <$> joined_keys df)
            ((λ k, value_tuple (truncate (default 0%Qc (final_row df k !! "year")))
                     (truncate (default 0%Qc (final_row df k !! "month")))
                     (truncate (default 0%Qc (final_row df k !! "branch_id")))
                     (final_row df k !! "salary_per_hour")) <$> joined_keys df)) as Hvs.
  { apply Forall2_fmap, Forall_Forall2_diag, Forall_forall. intros k Hk.
    destruct (Hrow k Hk) as (y & m & b & q & Hy & Hm & Hb & Hq).
    rewrite Hy, Hm, Hb. by apply data_value_Ok. }
  rewrite (data_values_Ok _ _ _ Hvs). cbn [mbind result_bind].
  eexists. split; [done|].
  apply Forall2_fmap, Forall_Forall2_diag, Forall_forall. intros k Hk.
  destruct (Hrow k Hk) as (y & m & b & q & Hy & Hm & Hb & Hq).
  exists y, m, b, q. rewrite Hy, Hm, Hb, Hq. split_and!; [done..|].
  cbn [default from_option]. unfold truncate at 1 2.
  change (Qnum (num y)) with y. change (Qnum (num m)) with m.
  by rewrite !Z.quot_1_r.
Qed.

(** X20.  A run for a date no timesheet row has: the pipeline returns the
    frame with the final header and no row, and the statement generated
    from it is the insert prefix alone, without any value tuple. *)
Theorem script_frames_no_timesheets `{Calendar} `{FloatFormat} e t y :
  employee_fields ⊆ columns e → timesheet_fields ⊆ columns t →
  (∀ c, c ∈ columns t → c ∉ columns e) →
  is_Ok (employee_data e) →
  (∀ r d, r ∈ rows t → r !! "date" = Some d → y ≠ Some d) →
  script_frames e t y = Ok {| columns := final_fields; rows := [] |} ∧
  (script_frames e t y ≫= generate_increment_data_query) = Ok insert_prefix.
Proof.
  intros He Ht Hdis [E HE] Hdate.
  assert (timesheet_data t y = Ok {| columns := columns t; rows := [] |}) as HT.
  { unfold timesheet_data, filter_timesheets_by_date.
    rewrite require_all
      by (repeat constructor; apply Ht; unfold timesheet_fields; by repeat constructor).
    cbn [mbind result_bind]. rewrite filter_none.
    - apply remove_duplicate_data_empty; [done| |].
      + intros c Hc. apply Ht. unfold timesheet_fields.
        rewrite !elem_of_cons, elem_of_nil in Hc. destruct Hc as [->|[->|[]]];
          by repeat constructor.
      + apply Ht. unfold timesheet_fields. by repeat constructor.
    - intros r Hr Heq. apply Is_true_true, cell_eq_true in Heq as (d & Hd & ->).
      by apply (Hdate r d). }
  destruct (script_frames_stages e t y E _ He Ht Hdis HE HT) as (D & HD & Hrows).
  assert (joined_keys D = []) as Hnil.
  { unfold joined_keys, hours_keys. rewrite dated_rows. unfold with_work_hour, assign.
    cbn [rows]. by rewrite Hrows. }
  rewrite Hnil in HD. split; [done|]. by rewrite HD.
Qed.


(** ** The further properties on the example data *)

Lemma well_formed_cells df :
  Forall (λ r : gmap string Qc, Forall (λ kv, kv.1 ∈ columns df) (map_to_list r)) (rows df) →
  well_formed df.
Proof.
  intros Hall r c Hr [x Hx]. eapply Forall_forall in Hall; [|done].
  apply elem_of_map_to_list in Hx.
  by apply (proj1 (Forall_forall _ _) Hall (c, x)).
Qed.

Lemma remove_duplicate_data_idempotent_witness :
  ∃ out, employee_data employees_csv = Ok out ∧
    remove_duplicate_data ["employe_id"; "branch_id"] "salary" false out = Ok out.
Proof.
  destruct (employee_data employees_csv) as [out|e] eqn:E; [|by vm_compute in E].
  exists out. split; [done|].
  exact (remove_duplicate_data_idempotent ["employe_id"; "branch_id"] "salary" false
           employees_csv out E).
Defined.

Lemma remove_duplicate_data_ordered_witness :
  ∃ out, timesheet_data timesheets_csv (Some (midnight jun_1)) = Ok out ∧
    length (rows out) ≤ 3.
Proof.
  unfold timesheet_data.
  destruct (filter_timesheets_by_date (Some (midnight jun_1)) timesheets_csv)
    as [mid|e] eqn:Emid; [|by vm_compute in Emid].
  cbn [mbind result_bind].
  destruct (remove_duplicate_data ["employee_id"; "date"] "timesheet_id" true mid)
    as [out|e] eqn:E.
  - exists out. split; [done|].
    destruct (remove_duplicate_data_ordered _ _ _ mid out E) as (_ & Hlen & _).
    etrans; [exact Hlen|]. vm_compute in Emid. injection Emid as <-. cbn [rows length]. lia.
  - vm_compute in Emid. injection Emid as <-. by vm_compute in E.
Defined.

Lemma filter_valid_data_idempotent_witness :
  ∃ out, filter_valid_data early_entries = Ok out ∧ filter_valid_data out = Ok out.
Proof.
  destruct (filter_valid_data early_entries) as [out|e] eqn:E; [|by vm_compute in E].
  exists out. split; [done|].
  by destruct (filter_valid_data_idempotent early_entries out E) as (_ & _ & ?).
Defined.

Lemma filter_timesheets_by_date_keeps_witness :
  ∃ out, filter_timesheets_by_date (Some (midnight jun_1)) timesheets_csv = Ok out ∧
    sublist (rows out) (rows timesheets_csv).
Proof.
  destruct (filter_timesheets_by_date (Some (midnight jun_1)) timesheets_csv)
    as [out|e] eqn:E; [|by vm_compute in E].
  exists out. split; [done|].
  by destruct (filter_timesheets_by_date_keeps _ timesheets_csv out E) as (_ & ? & _).
Defined.

Lemma select_fields_compose_witness :
  ∃ mid, select_fields enriched_columns june_entries = Ok mid ∧
    select_fields ["employee_id"; "date"] mid
    = select_fields ["employee_id"; "date"] june_entries.
Proof.
  destruct (select_fields enriched_columns june_entries) as [mid|e] eqn:E;
    [|by vm_compute in E].
  exists mid. split; [done|].
  assert (["employee_id"; "date"] ⊆ enriched_columns) as Hsub
    by (apply Forall_subseteq; unfold enriched_columns; by repeat constructor).
  by destruct (select_fields_compose enriched_columns ["employee_id"; "date"]
                 june_entries mid Hsub E) as (? & _).
Defined.

Lemma calculate_work_hour_idempotent_witness :
  ∃ out, calculate_work_hour june_entries = Ok out ∧ calculate_work_hour out = Ok out.
Proof.
  destruct (calculate_work_hour june_entries) as [out|e] eqn:E; [|by vm_compute in E].
  exists out. split; [done|]. exact (calculate_work_hour_idempotent june_entries out E).
Defined.

Lemma calculate_work_hour_within_day_witness :
  ∃ out r h, calculate_work_hour june_entries = Ok out ∧ rows out !! 0%nat = Some r ∧
    r !! "work_hour" = Some h ∧ (0 ≤ h)%Qc ∧ (h ≤ num 24)%Qc.
Proof.
  assert (calculate_work_hour june_entries = Ok (with_work_hour june_entries)) as E
    by (apply calculate_work_hour_Ok; by repeat constructor).
  destruct (rows (with_work_hour june_entries) !! 0%nat) as [r|] eqn:Hr;
    [|by vm_compute in Hr].
  assert (r !! "checkin" = Some (clock 8 0)) as Hci
    by (vm_compute in Hr; injection Hr as <-; by vm_compute).
  assert (r !! "checkout" = Some (clock 16 0)) as Hco
    by (vm_compute in Hr; injection Hr as <-; by vm_compute).
  destruct (calculate_work_hour_within_day june_entries _ r _ _ E
              (list_elem_of_lookup_2 _ _ _ Hr) Hci Hco) as (h & Hh & Hlo & Hhi).
  - by vm_compute.
  - by vm_compute.
  - by exists (with_work_hour june_entries), r, h.
Defined.

Lemma sum_work_hour_totals_witness :
  ∃ out, @sum_work_hour gregorian june_batch = Ok out ∧
    columns out = ["year"; "month"; "branch_id"; "total_work_hour"].
Proof.
  destruct (@sum_work_hour gregorian june_batch) as [out|e] eqn:E; [|by vm_compute in E].
  exists out. split; [done|].
  by destruct (@sum_work_hour_totals gregorian june_batch out E) as (? & _).
Defined.



Lemma salary_data_ignores_repeats_witness :
  @salary_data gregorian june_entries = @salary_data gregorian june_entries_repeated.
Proof.
  apply (@salary_data_ignores_repeats gregorian june_entries june_entries_repeated).
  - reflexivity.
  - intros r. unfold june_entries_repeated. cbn [rows]. rewrite elem_of_app. tauto.
Defined.

Lemma merge_on_inner_join_witness :
  ∃ out, joined_employee_timesheet_data timesheets_csv employees_csv = Ok out ∧
    columns out = columns timesheets_csv ++ columns employees_csv ∧
    length (rows out) = 5.
Proof.
  destruct (merge_on_inner_join timesheets_csv employees_csv "employee_id" "employe_id")
    as [_ Hout].
  - apply well_formed_cells. compute_done.
  - apply well_formed_cells. compute_done.
  - intros c Hc. revert c Hc. apply Forall_forall. compute_done.
  - destruct (joined_employee_timesheet_data timesheets_csv employees_csv)
      as [out|e] eqn:E; [|by vm_compute in E].
    exists out. split; [done|].
    destruct (Hout out E) as (Hcols & _ & _ & Hlen & _). split; [done|].
    rewrite Hlen. by vm_compute.
Defined.

Lemma filter_valid_data_select_fields_commute_witness :
  ∃ out, (filter_valid_data june_entries ≫= select_fields enriched_columns) = Ok out ∧
    (select_fields enriched_columns june_entries ≫= filter_valid_data) = Ok out.
Proof.
  destruct (filter_valid_data june_entries ≫= select_fields enriched_columns)
    as [out|e] eqn:E; [|by vm_compute in E].
  exists out. split; [done|].
  apply (filter_valid_data_select_fields_commute enriched_columns june_entries out);
    [unfold enriched_columns; by repeat constructor..|done].
Defined.

Lemma script_frames_returns_witness :
  ∃ out, @script_frames gregorian employees_csv timesheets_csv (Some (midnight jun_1))
         = Ok out ∧ columns out = final_fields.
Proof.
  destruct (@script_frames_returns gregorian employees_csv timesheets_csv
              (Some (midnight jun_1))) as [_ Hcols].
  - apply Forall_subseteq. compute_done.
  - apply Forall_subseteq. compute_done.
  - intros c Hc. revert c Hc. apply Forall_forall. compute_done.
  - destruct (@script_frames gregorian employees_csv timesheets_csv (Some (midnight jun_1)))
      as [out|e] eqn:E; [|by vm_compute in E].
    exists out. split; [done|]. by apply Hcols.
Defined.

Lemma salary_per_hour_data_query_witness :
  ∃ out vs, @salary_per_hour_data gregorian june_entries = Ok out ∧
    @generate_increment_data_query fraction_format out
    = Ok (insert_prefix +:+ String.concat ", " vs) ∧
    length vs = length (rows out).
Proof.
  destruct (@salary_per_hour_data gregorian june_entries) as [out|e] eqn:E;
    [|by vm_compute in E].
  destruct (@salary_per_hour_data_query gregorian fraction_format june_entries out E)
    as (vs & Hq & Hvs).
  exists out, vs. split; [done|]. split; [done|]. symmetry. by eapply Forall2_length.
Defined.

Lemma script_frames_no_timesheets_witness :
  (@script_frames gregorian employees_csv timesheets_csv (Some (midnight 0))
     ≫= @generate_increment_data_query fraction_format) = Ok insert_prefix.
Proof.
  apply (@script_frames_no_timesheets gregorian fraction_format employees_csv timesheets_csv).
  - apply Forall_subseteq. compute_done.
  - apply Forall_subseteq. compute_done.
  - intros c Hc. revert c Hc. apply Forall_forall. compute_done.
  - destruct (employee_data employees_csv) as [out|e] eqn:E; [by eexists|by vm_compute in E].
  - intros r d Hr Hd [= <-]. revert r Hr Hd.
    apply (Forall_forall (λ r : gmap string Qc, r !! "date" = Some (midnight 0) → False)).
    compute_done.
Defined.
